(** * Slipsense: the event pipeline of [src/App.jsx]

    A shallow embedding of the data pipeline of the Slipsense application:
    date normalisation ([parseLocalDate]), row ingestion ([handleFile]),
    great-circle distance ([haversineKm]), the spatial grid
    ([groupByGrid]), the training set ([buildDataset]) and the
    train-and-score procedure ([trainAndPredict]).

    Conventions of the model.
    - A JavaScript number that is data (latitude, magnitude, a parameter of
      the form) is an exact rational [Q]; rounding to binary64 is not
      modelled.  Results of string conversions, which may be [NaN] or
      infinite, have type [Js.number].
    - [Math.cos], [Math.sin], [Math.asin], [Math.sqrt], [Math.floor] and the
      tensor arithmetic of TensorFlow.js are the functions of the real
      numbers; data enters them through [Q2R].
    - A [Date] is its time value in milliseconds, or invalid.  Local time
      is UTC plus a constant offset; the parser behind [new Date(string)],
      whose format is left to the implementation, is a parameter.
    - White space is the one of the ASCII range.
    - The rows that [handleFile] produces ([parsedRow]) may hold an
      invalid date.  The core ([groupByGrid], [buildDataset],
      [trainAndPredict]) is followed on events whose date is valid and
      whose numbers are finite ([row]); [groupByGrid] and [buildDataset]
      are followed as well on rows whose date may be invalid
      ([Wide.row]), and the two models agree on valid dates.
    - Since rounding is not modelled, a grid coordinate of the model can
      differ from the one of the source where a quotient is within
      rounding of an integer, and [x || 1] replaces a product that is
      zero as a real number.
    - The classifier of TensorFlow.js is a parameter: a type of models, a
      fitting function and a prediction function, each of which may throw.
    - The calls of [alert] are recorded in the state. *)

From Stdlib Require Import ZArith QArith Qround Qreals Reals Lra Lia.
From Stdlib Require Import Bool List String Ascii Permutation Sorted.
From Stdlib Require Lqa.
Import ListNotations.

Set Implicit Arguments.

(* ================================================================== *)
(** * JavaScript primitives used by the source *)
(* ================================================================== *)

Module Js.

Local Open Scope string_scope.
Local Open Scope Z_scope.

(** ** Numbers produced by string conversion *)

Inductive number : Type :=
| Fin (q : Q)
| NaN
| PosInf
| NegInf.

Definition Qlt_bool' (a b : Q) : bool := negb (Qle_bool b a).

(** [a > b] and [a < b]; every comparison with [NaN] is false. *)
Definition gt (a b : number) : bool :=
  match a, b with
  | Fin x, Fin y => Qlt_bool' y x
  | PosInf, Fin _ | PosInf, NegInf | Fin _, NegInf => true
  | _, _ => false
  end.

Definition lt (a b : number) : bool := gt b a.

(** [a + q] and [a - q] for a finite [q]. *)
Definition addq (a : number) (q : Q) : number :=
  match a with
  | Fin x => Fin (Qred (x + q))
  | other => other
  end.

Definition subq (a : number) (q : Q) : number := addq a (- q).

Definition neg (a : number) : number :=
  match a with
  | Fin x => Fin (Qred (- x))
  | NaN => NaN
  | PosInf => NegInf
  | NegInf => PosInf
  end.

Definition isNaN (a : number) : bool :=
  match a with NaN => true | _ => false end.

(** ** Strings *)

(** White space of the ASCII range: TAB, LF, VT, FF, CR and SPACE. *)
Definition isWhite (c : ascii) : bool :=
  let n := nat_of_ascii c in
  ((9 <=? n) && (n <=? 13))%nat || (n =? 32)%nat.

Fixpoint trimStart (s : string) : string :=
  match s with
  | String c s' => if isWhite c then trimStart s' else s
  | EmptyString => s
  end.

Fixpoint trimEnd (s : string) : string :=
  match s with
  | String c s' =>
      match trimEnd s' with
      | EmptyString => if isWhite c then EmptyString else String c EmptyString
      | t => String c t
      end
  | EmptyString => EmptyString
  end.

(** [s.trim()] *)
Definition trim (s : string) : string := trimEnd (trimStart s).

(** [s.includes(c)] for a one-character pattern. *)
Fixpoint includes (c : ascii) (s : string) : bool :=
  match s with
  | String x s' => Ascii.eqb x c || includes c s'
  | EmptyString => false
  end.

(** [s.split(c)] for a one-character separator: never the empty list. *)
Fixpoint split (sep : ascii) (s : string) : list string :=
  match s with
  | EmptyString => [EmptyString]
  | String c s' =>
      if Ascii.eqb c sep then EmptyString :: split sep s'
      else match split sep s' with
           | tok :: rest => String c tok :: rest
           | [] => [String c EmptyString]
           end
  end.

(** [s.replace(/c/g, d)]: every occurrence. *)
Fixpoint replaceAll (c d : ascii) (s : string) : string :=
  match s with
  | String x s' => String (if Ascii.eqb x c then d else x) (replaceAll c d s')
  | EmptyString => EmptyString
  end.

(** [s.replace(c, d)] with a string pattern: the first occurrence only. *)
Fixpoint replaceFirst (c d : ascii) (s : string) : string :=
  match s with
  | String x s' => if Ascii.eqb x c then String d s' else String x (replaceFirst c d s')
  | EmptyString => EmptyString
  end.

(** A value is falsy when it is [undefined] or the empty string. *)
Definition truthy (v : option string) : bool :=
  match v with
  | Some (String _ _) => true
  | _ => false
  end.

(** [a || b] on values that are strings or [undefined]. *)
Definition orElse (a b : option string) : option string :=
  if truthy a then a else b.

(** ** Numeric literals *)

Definition digitOf (radix : Z) (c : ascii) : option Z :=
  let n := Z.of_nat (nat_of_ascii c) in
  let v := if (48 <=? n) && (n <=? 57) then n - 48
           else if (97 <=? n) && (n <=? 122) then n - 87
           else if (65 <=? n) && (n <=? 90) then n - 55
           else radix in
  if v <? radix then Some v else None.

(** The longest run of digits at the head of [s]: its value, its length,
    and the rest of the string. *)
Fixpoint spanDigits (radix : Z) (s : string) (acc : Z) (cnt : nat)
  : Z * nat * string :=
  match s with
  | String c s' =>
      match digitOf radix c with
      | Some d => spanDigits radix s' (radix * acc + d) (S cnt)
      | None => (acc, cnt, s)
      end
  | EmptyString => (acc, cnt, s)
  end.

Definition signOf (s : string) : Z * string :=
  match s with
  | String "+" r => (1, r)
  | String "-" r => (-1, r)
  | _ => (1, s)
  end.

(** An optional [ExponentPart]; a malformed one is not consumed. *)
Definition exponentPart (s : string) : Z * string :=
  match s with
  | String c s1 =>
      if Ascii.eqb c "e" || Ascii.eqb c "E" then
        let (sg, s2) := signOf s1 in
        let '(v, n, r) := spanDigits 10 s2 0 0 in
        if (n =? 0)%nat then (0, s) else (sg * v, r)
      else (0, s)
  | EmptyString => (0, s)
  end.

Definition tenTo (e : Z) : Q := Qpower (10 # 1) e.

(** The longest prefix of [s] that is a [StrUnsignedDecimalLiteral]. *)
Definition unsignedDecimal (s : string) : option (number * string) :=
  if prefix "Infinity" s then Some (PosInf, substring 8 (length s - 8) s)
  else
    let '(ip, ni, r1) := spanDigits 10 s 0 0 in
    match r1 with
    | String "." r2 =>
        let '(fp, nf, r3) := spanDigits 10 r2 0 0 in
        if (ni =? 0)%nat && (nf =? 0)%nat then None
        else
          let (e, r4) := exponentPart r3 in
          Some (Fin (Qred ((inject_Z ip + inject_Z fp / tenTo (Z.of_nat nf)) * tenTo e)), r4)
    | _ =>
        if (ni =? 0)%nat then None
        else
          let (e, r4) := exponentPart r1 in
          Some (Fin (Qred (inject_Z ip * tenTo e)), r4)
    end.

(** The longest prefix of [s] that is a [StrDecimalLiteral]. *)
Definition decimalPrefix (s : string) : option (number * string) :=
  let (sg, r) := signOf s in
  match unsignedDecimal r with
  | Some (v, rest) => Some (if sg <? 0 then neg v else v, rest)
  | None => None
  end.

(** [parseFloat(s)] *)
Definition parseFloat (s : string) : number :=
  match decimalPrefix (trimStart s) with
  | Some (v, _) => v
  | None => NaN
  end.

(** [parseInt(s, 10)] *)
Definition parseInt (s : string) : number :=
  let (sg, r) := signOf (trimStart s) in
  let '(v, n, _) := spanDigits 10 r 0 0 in
  if (n =? 0)%nat then NaN else Fin (inject_Z (sg * v)).

Definition nonDecimal (radix : Z) (digits : string) : number :=
  let '(v, n, rest) := spanDigits radix digits 0 0 in
  match rest with
  | EmptyString => if (n =? 0)%nat then NaN else Fin (inject_Z v)
  | _ => NaN
  end.

(** [+s], the conversion [ToNumber] of a string. *)
Definition toNumber (s : string) : number :=
  match trim s with
  | EmptyString => Fin 0
  | String "0" (String "x" ds) | String "0" (String "X" ds) => nonDecimal 16 ds
  | String "0" (String "o" ds) | String "0" (String "O" ds) => nonDecimal 8 ds
  | String "0" (String "b" ds) | String "0" (String "B" ds) => nonDecimal 2 ds
  | t =>
      match decimalPrefix t with
      | Some (v, EmptyString) => v
      | _ => NaN
      end
  end.

(** ** Dates *)

Inductive Date : Type :=
| ValidDate (tv : Z)
| InvalidDate.

(** [d.getTime()], with [None] for [NaN]. *)
Definition getTime (d : Date) : option Z :=
  match d with
  | ValidDate tv => Some tv
  | InvalidDate => None
  end.

Definition msPerDay : Z := 86400000.

(** [ToIntegerOrInfinity] on a finite number: truncation towards zero. *)
Definition truncate (q : Q) : Z :=
  if Qle_bool 0 q then Qfloor q else Qceiling q.

(** Number of days from 1970-01-01 to the first day of month [m]
    (0 = January) of the year [y], in the proleptic Gregorian calendar. *)
Definition daysFromCivil (y m : Z) : Z :=
  let y' := if m <? 2 then y - 1 else y in
  let era := y' / 400 in
  let yoe := y' - era * 400 in
  let mp := if m <? 2 then m + 10 else m - 2 in
  let doy := (153 * mp + 2) / 5 in
  let doe := yoe * 365 + yoe / 4 - yoe / 100 + doy in
  era * 146097 + doe - 719468.

(** The civil date (year, month from 0, day of month) of a day number. *)
Definition civilFromDays (z : Z) : Z * Z * Z :=
  let z := z + 719468 in
  let era := z / 146097 in
  let doe := z - era * 146097 in
  let yoe := (doe - doe / 1460 + doe / 36524 - doe / 146096) / 365 in
  let doy := doe - (365 * yoe + yoe / 4 - yoe / 100) in
  let mp := (5 * doy + 2) / 153 in
  let d := doy - (153 * mp + 2) / 5 + 1 in
  let m := if mp <? 10 then mp + 2 else mp - 10 in
  (yoe + era * 400 + (if m <? 2 then 1 else 0), m, d).

Definition MakeDay (year month date : Z) : Z :=
  let ym := year + month / 12 in
  let mn := month mod 12 in
  daysFromCivil ym mn + date - 1.

Definition MakeTime (hour min sec ms : Z) : Z :=
  hour * 3600000 + min * 60000 + sec * 1000 + ms.

Definition MakeDate (day time : Z) : Z := day * msPerDay + time.

Definition MakeFullYear (year : Z) : Z :=
  if (0 <=? year) && (year <=? 99) then 1900 + year else year.

Definition TimeClip (t : Z) : Date :=
  if 8640000000000000 <? Z.abs t then InvalidDate else ValidDate t.

Section LocalTime.

(** Offset of local time from UTC in milliseconds, taken as constant. *)
Variable tzOffset : Z.

(** [new Date(string)]: the format is implementation-defined apart from
    the ISO format, so the parser is a parameter. *)
Variable dateParse : string -> Date.

(** [new Date(year, monthIndex, day, hours, minutes, seconds)] *)
Definition newDate (year month day hh mm ss : number) : Date :=
  match year, month, day, hh, mm, ss with
  | Fin y, Fin m, Fin d, Fin h, Fin mi, Fin s =>
      let yr := MakeFullYear (truncate y) in
      let local := MakeDate (MakeDay yr (truncate m) (truncate d))
                            (MakeTime (truncate h) (truncate mi) (truncate s) 0) in
      TimeClip (local - tzOffset)
  | _, _, _, _, _, _ => InvalidDate
  end.

Definition localDay (d : Date) : option Z :=
  match d with
  | ValidDate tv => Some ((tv + tzOffset) / msPerDay)
  | InvalidDate => None
  end.

(** [d.getFullYear()], [d.getMonth()], [d.getDate()]: [None] for [NaN]. *)
Definition getFullYear (d : Date) : option Z :=
  option_map (fun z => fst (fst (civilFromDays z))) (localDay d).
Definition getMonth (d : Date) : option Z :=
  option_map (fun z => snd (fst (civilFromDays z))) (localDay d).
Definition getDate (d : Date) : option Z :=
  option_map (fun z => snd (civilFromDays z)) (localDay d).

End LocalTime.

End Js.

(* ================================================================== *)
(** * DateNormalizer: [parseLocalDate] *)
(* ================================================================== *)

Section DateNormalizer.

Import Js.
Local Open Scope string_scope.
Local Open Scope Z_scope.

Variable tzOffset : Z.
Variable dateParse : string -> Date.

(** An array element that may be missing: [undefined] converts to [NaN]
    when it is passed to the [Date] constructor. *)
Definition element (l : list number) (i : nat) : number := nth i l NaN.

(** [parseLocalDate(dateStr, timeStr)].  The arguments are cells of a
    parsed CSV row: a string, or [undefined] when the column is absent.
    [None] is the result [null].  No operation of the body throws on such
    arguments, so the [catch] branch is not reached. *)
Definition parseLocalDate (dateStr timeStr : option string) : option Date :=
  if negb (truthy dateStr) then None
  else
    let sdate := trim (match dateStr with Some s => s | None => "" end) in
    let stime := trim (match orElse timeStr (Some "00:00:00") with
                       | Some s => s
                       | None => ""
                       end) in
    let t := replaceAll "." ":" stime in
    let d := if includes "/" sdate then split "/" sdate else split "-" sdate in
    match d with
    | [d0; d1; d2] =>
        let '(day, month, year) :=
          if gt (toNumber d0) (Fin 31)
          then (toNumber d2, toNumber d1, toNumber d0)
          else (toNumber d0, toNumber d1, toNumber d2) in
        let year := if gt year (Fin 2400) then subq year 543 else year in
        let year := if lt year (Fin 100) then addq year 2000 else year in
        let parts :=
          map (fun x => parseInt (match x with EmptyString => "0" | _ => x end))
              (split ":" t) in
        Some (newDate tzOffset year (subq month 1) day
                      (element parts 0) (element parts 1) (element parts 2))
    | _ => Some (dateParse (sdate ++ " " ++ t)%string)
    end.

End DateNormalizer.

(** ** [Array.prototype.sort] with a comparator

    [above a b] says that the comparator is positive at [(a, b)].  The sort
    is stable; for a consistent comparator its result is the one of this
    insertion sort. *)

Section Sort.

Variable A : Type.
Variable above : A -> A -> bool.

Fixpoint insertSorted (x : A) (l : list A) : list A :=
  match l with
  | y :: l' => if above x y then y :: insertSorted x l' else x :: l
  | [] => [x]
  end.

Definition sortBy (l : list A) : list A := fold_right insertSorted [] l.

End Sort.

(* ================================================================== *)
(** * Ingestion: the [complete] callback of [handleFile] *)
(* ================================================================== *)

Section Ingestion.

Import Js.
Local Open Scope string_scope.

Variable tzOffset : Z.
Variable dateParse : string -> Date.

(** A row of [res.data]: an object from column names to cell texts. *)
Definition rawRow : Type := list (string * string).

(** [r[k]]: [None] is [undefined]. *)
Fixpoint field (r : rawRow) (k : string) : option string :=
  match r with
  | (k', v) :: r' => if String.eqb k' k then Some v else field r' k
  | [] => None
  end.

(** The text of a value that is known to be a string. *)
Definition text (v : option string) : string :=
  match v with Some s => s | None => "" end.

(** The object [{ date, lat, lon, mag, locate }] built for a kept row. *)
Record parsedRow : Type := mkParsedRow {
  pdate : Date;
  plat : number;
  plon : number;
  pmag : number;
  plocate : string
}.

(** The function given to [res.data.map]; [None] is [null]. *)
Definition parseRow (r : rawRow) : option parsedRow :=
  let dt := parseLocalDate tzOffset dateParse (field r "DATE") (field r "TIME") in
  let lat := parseFloat (replaceFirst "," "."
               (text (orElse (orElse (field r "LAT") (field r "Latitude")) (Some "")))) in
  let lon := parseFloat (replaceFirst "," "."
               (text (orElse (orElse (orElse (field r "LONG") (field r "LON"))
                                     (field r "Longitude")) (Some "")))) in
  let mag := parseFloat (replaceFirst "," "."
               (text (orElse (orElse (orElse (field r "M/I") (field r "MAG"))
                                     (field r "M")) (Some "")))) in
  match dt with
  | None => None
  | Some d =>
      if isNaN lat || isNaN lon || isNaN mag then None
      else Some (mkParsedRow d lat lon mag
                   (text (orElse (orElse (field r "LOCATE") (field r "PLACE")) (Some "-"))))
  end.

(** [.filter(Boolean)] after [.map]. *)
Fixpoint keepParsed (rows : list rawRow) : list parsedRow :=
  match rows with
  | r :: rows' =>
      match parseRow r with
      | Some p => p :: keepParsed rows'
      | None => keepParsed rows'
      end
  | [] => []
  end.

(** [a.date - b.date > 0]; the difference is [NaN] for an invalid date. *)
Definition pdateAbove (a b : parsedRow) : bool :=
  match getTime (pdate a), getTime (pdate b) with
  | Some x, Some y => (y <? x)%Z
  | _, _ => false
  end.

(** The argument of [setLocalData] in [handleFile]. *)
Definition handleFile (data : list rawRow) : list parsedRow :=
  sortBy pdateAbove (keepParsed data).

End Ingestion.

(* ================================================================== *)
(** * Event records of the core *)
(* ================================================================== *)

(** An event whose date is valid and whose numbers are finite.  The rows
    with an invalid date, which [handleFile] lets through, are those of
    [Wide.row] below. *)
Record row : Type := mkRow {
  date : Z;          (** [r.date.getTime()], in milliseconds *)
  lat : Q;
  lon : Q;
  mag : Q;
  locate : string
}.

(** The parsed rows that are events of the core. *)
Definition eventOf (p : parsedRow) : option row :=
  match pdate p, plat p, plon p, pmag p with
  | Js.ValidDate tv, Js.Fin la, Js.Fin lo, Js.Fin m => Some (mkRow tv la lo m (plocate p))
  | _, _, _, _ => None
  end.

(** [(a, b) => a.date - b.date] is positive. *)
Definition dateAbove (a b : row) : bool := (date b <? date a)%Z.

(* ================================================================== *)
(** * DistanceMetric: [haversineKm] *)
(* ================================================================== *)

Section Distance.

Local Open Scope R_scope.

Definition toRad (deg : R) : R := (deg * PI) / 180.

(** The quantity [a] of [haversineKm]. *)
Definition haversineA (aLat aLon bLat bLon : R) : R :=
  let dLat := toRad (bLat - aLat) in
  let dLon := toRad (bLon - aLon) in
  let lat1 := toRad aLat in
  let lat2 := toRad bLat in
  sin (dLat / 2) ^ 2 + cos lat1 * cos lat2 * sin (dLon / 2) ^ 2.

Definition haversineKm (aLat aLon bLat bLon : R) : R :=
  let R := 6371 in
  let a := haversineA aLat aLon bLat bLon in
  2 * R * asin (sqrt a).

End Distance.

(* ================================================================== *)
(** * SpatialGridIndex: [groupByGrid] *)
(* ================================================================== *)

Section Grid.

Local Open Scope R_scope.

(** [x || 1] on a number: 1 when [x] is zero. *)
Definition orOne (x : R) : R := if Req_dec_T x 0 then 1 else x.

(** [Math.floor] *)
Definition floor (x : R) : Z := Int_part x.

(** The entry of the [Map]: [{ gx, gy, degLat, rows }]. *)
Record cell : Type := mkCell {
  gx : Z;
  gy : Z;
  degLat : R;
  rows : list row
}.

(** The key [`${gx},${gy}`]; distinct pairs give distinct texts. *)
Definition cellKey : Type := (Z * Z)%type.

Definition key_eqb (a b : cellKey) : bool :=
  (fst a =? fst b)%Z && (snd a =? snd b)%Z.

(** The [Map], in insertion order of its keys. *)
Definition grid : Type := list (cellKey * cell).

(** [grid.has(key)] *)
Definition gridHas (g : grid) (k : cellKey) : bool :=
  existsb (fun e => key_eqb k (fst e)) g.

(** [grid.get(key).rows.push(r)] *)
Fixpoint gridPush (g : grid) (k : cellKey) (r : row) : grid :=
  match g with
  | (k', c) :: g' =>
      if key_eqb k k'
      then (k', mkCell (gx c) (gy c) (degLat c) (rows c ++ [r])) :: g'
      else (k', c) :: gridPush g' k r
  | [] => []
  end.

(** [gx] and [gy] of a row.  The cosine, the quotients and [floor] are
    those of the real numbers.  The source computes in binary64: where a
    quotient is within rounding of an integer it may give the
    neighbouring coordinate (at latitude 60 the rounded cosine is a
    little above one half), and at latitude 90 the rounded cosine is not
    zero, so that the source takes the divisor 1 only for [degLat = 0]. *)
Definition gridCoords (degLat : R) (r : row) : cellKey :=
  let gy := floor (Q2R (lat r) / degLat) in
  let gx := floor (Q2R (lon r)
                   / orOne (degLat * cos ((Q2R (lat r) * PI) / 180))) in
  (gx, gy).

Section Grouping.

(** The grouping depends on the rows only through their coordinates. *)
Variable coords : row -> cellKey.
Variable dLat : R.

(** The body of [rows.forEach]. *)
Definition groupStep (g : grid) (r : row) : grid :=
  let k := coords r in
  let g1 := if gridHas g k then g
            else g ++ [(k, mkCell (fst k) (snd k) dLat [])] in
  gridPush g1 k r.

Definition groupWith (rs : list row) : grid := fold_left groupStep rs [].

End Grouping.

Definition groupByGrid (rs : list row) (cellKm : Q) : grid :=
  let degLat := Q2R cellKm / 111 in
  groupWith (gridCoords degLat) degLat rs.

End Grid.

(* ================================================================== *)
(** * The application state *)
(* ================================================================== *)

(** The texts given to [setTrainingStatus]. *)
Inductive status : Type :=
| StatusIdle        (** the empty text *)
| StatusPreparing
| StatusTraining
| StatusScoring
| StatusDone
| StatusError.

(** The two texts given to [alert]. *)
Inductive alertMsg : Type :=
| AlertFewRows       (** fewer than 30 rows *)
| AlertFewExamples.  (** fewer than 30 training examples *)

(** [{ ...r, probability: prob }] *)
Record prediction : Type := mkPrediction {
  event : row;
  probability : R
}.

(** The [useState] cells of [App], and the alerts shown so far. *)
Record appState : Type := mkState {
  localData : list row;
  predictions : list prediction;
  nextPrediction : option prediction;
  cellKm : Q;
  lookbackDays : Q;
  horizonDays : Q;
  magThreshold : Q;
  trainingStatus : status;
  alerts : list alertMsg
}.

(* ================================================================== *)
(** * FeatureBuilder for training: [buildDataset] *)
(* ================================================================== *)

Section Dataset.

Local Open Scope Q_scope.

(** [{ cell, time, source }] *)
Record metaRec : Type := mkMeta {
  mcell : cellKey;
  mtime : Z;
  msource : string
}.

(** [{ X, y, meta }] *)
Record dataset : Type := mkDataset {
  X : list (list Q);
  y : list Z;
  meta : list metaRec
}.

(** [days * 24 * 3600 * 1000], as an exact product; in binary64 the
    product of a fractional number of days is rounded. *)
Definition msOfDays (days : Q) : Q := days * 24 * 3600 * 1000.

(** [r.date.getTime() >= lookStart && r.date.getTime() < t] *)
Definition inLookback (lookStart : Q) (t : Z) (r : row) : bool :=
  Qle_bool lookStart (inject_Z (date r)) && (date r <? t)%Z.

(** [r.date.getTime() > t && r.date.getTime() <= horizonEnd] *)
Definition inHorizon (t : Z) (horizonEnd : Q) (r : row) : bool :=
  (t <? date r)%Z && Qle_bool (inject_Z (date r)) horizonEnd.

(** [past.reduce((s, e) => s + e.mag, 0)] *)
Definition sumMag (past : list row) : Q :=
  fold_left (fun s e => s + mag e) past 0.

(** [cnt], [avgMag] and [lastTime] of the event [cur] with time [t], and
    the vector [[cur.lat, cur.lon, cnt, avgMag, lastTime]]; the same
    lines appear in [buildDataset] and in the scoring loop. *)
Definition featureVector (cur : row) (t : Z) (past : list row) : list Q :=
  let cnt := List.length past in
  let avgMag := if (0 <? cnt)%nat then sumMag past / inject_Z (Z.of_nat cnt) else 0 in
  let lastTime :=
    if (0 <? List.length past)%nat
    then inject_Z (t - date (last past cur)) / 3600000
    else 999999 in
  [lat cur; lon cur; inject_Z (Z.of_nat cnt); avgMag; lastTime].

Variable s : appState.

(** The body of the [for] loop at index [i], for [cur = cellRows[i]]. *)
Definition example (c : cell) (cellRows : list row) (cur : row)
  : list Q * Z * metaRec :=
  let t := date cur in
  let lookStart := inject_Z t - msOfDays (lookbackDays s) in
  let past := filter (inLookback lookStart t) cellRows in
  let horizonEnd := inject_Z t + msOfDays (horizonDays s) in
  let futureEvents := filter (inHorizon t horizonEnd) cellRows in
  let label := if existsb (fun fe => Qle_bool (magThreshold s) (mag fe)) futureEvents
               then 1%Z else 0%Z in
  (featureVector cur t past, label, mkMeta (gx c, gy c) t (locate cur)).

(** The examples of one cell: indices [0 .. cellRows.length - 2]. *)
Definition cellExamples (c : cell) : list (list Q * Z * metaRec) :=
  let cellRows := sortBy dateAbove (rows c) in
  map (example c cellRows) (firstn (List.length cellRows - 1) cellRows).

(** The pushes to [X], [y] and [meta], cell after cell. *)
Definition allExamples (rs : list row) : list (list Q * Z * metaRec) :=
  flat_map (fun e => cellExamples (snd e)) (groupByGrid rs (cellKm s)).

Definition buildDataset (rs : list row) : dataset :=
  let ex := allExamples rs in
  mkDataset (map (fun e => fst (fst e)) ex)
            (map (fun e => snd (fst e)) ex)
            (map snd ex).

End Dataset.

(* ================================================================== *)
(** * Normalizer: [tf.moments], [sub], [div] *)
(* ================================================================== *)

Section Tensors.

Local Open Scope R_scope.

(** A rank-2 tensor, row by row. *)
Definition tensor2d : Type := list (list R).

Definition sumR (xs : list R) : R := fold_right Rplus 0 xs.

Definition meanR (xs : list R) : R := sumR xs / INR (List.length xs).

(** The variance of [tf.moments]: the mean of the squared deviations. *)
Definition varR (xs : list R) : R :=
  let m := meanR xs in
  meanR (map (fun x => (x - m) ^ 2) xs).

(** Number of columns: the length of the first row. *)
Definition width (t : tensor2d) : nat :=
  match t with
  | r :: _ => List.length r
  | [] => 0%nat
  end.

Definition column (j : nat) (t : tensor2d) : list R :=
  map (fun r => nth j r 0) t.

(** [tf.moments(x, 0)]: mean and variance of every column. *)
Definition moments (t : tensor2d) : list R * list R :=
  (map (fun j => meanR (column j t)) (seq 0 (width t)),
   map (fun j => varR (column j t)) (seq 0 (width t))).

Definition epsilon : R := 1 / 1000000.

(** [tf.sqrt(variance).add(1e-6)] *)
Definition stdOf (variance : list R) : list R :=
  map (fun v => sqrt v + epsilon) variance.

(** One row of [x.sub(mean).div(std)], by broadcasting. *)
Fixpoint normRow (mean std r : list R) : list R :=
  match r, mean, std with
  | x :: r', m :: mean', sd :: std' => (x - m) / sd :: normRow mean' std' r'
  | _, _, _ => []
  end.

(** [x.sub(mean).div(std)] *)
Definition normalize (mean std : list R) (t : tensor2d) : tensor2d :=
  map (normRow mean std) t.

(** [tf.tensor2d(X)] on the feature matrix. *)
Definition tensorOf (m : list (list Q)) : tensor2d := map (map Q2R) m.

End Tensors.

(* ================================================================== *)
(** * ClassifierTrainer and RiskScorer: [trainAndPredict] *)
(* ================================================================== *)

Section Training.

Local Open Scope R_scope.

(** The network of TensorFlow.js: [model.fit] on the normalised matrix
    and the labels, failing with [None] when it throws, and
    [model.predict] on one normalised vector, with [None] when it
    throws. *)
Variable Model : Type.
Variable fit : tensor2d -> list R -> option Model.
Variable predict : Model -> list R -> option R.

Definition Rle_bool (a b : R) : bool := if Rle_dec a b then true else false.
Definition Rlt_bool (a b : R) : bool := if Rlt_dec a b then true else false.

(** The filter of the scoring loop: in the lookback window and within
    [cellKm] kilometres of [r]. *)
Definition nearPast (s : appState) (r : row) (lookStart : Q) (t : Z) (e : row) : bool :=
  inLookback lookStart t e
  && Rle_bool (haversineKm (Q2R (lat e)) (Q2R (lon e)) (Q2R (lat r)) (Q2R (lon r)))
              (Q2R (cellKm s)).

(** The body of the scoring loop for [r = rows[i]]: the record pushed to
    [preds], or [None] when the prediction throws. *)
Definition score (s : appState) (m : Model) (mean std : list R)
           (rs : list row) (r : row) : option prediction :=
  let t := date r in
  let lookStart := (inject_Z t - msOfDays (lookbackDays s))%Q in
  let past := filter (nearPast s r lookStart t) rs in
  let feat := map Q2R (featureVector r t past) in
  let featNorm := normRow mean std feat in
  match predict m featNorm with
  | Some prob => Some (mkPrediction r prob)
  | None => None
  end.

(** The scoring loop over the events [todo], in their order. *)
Fixpoint scoreAll (s : appState) (m : Model) (mean std : list R)
         (rs todo : list row) : option (list prediction) :=
  match todo with
  | r :: todo' =>
      match score s m mean std rs r with
      | Some p =>
          match scoreAll s m mean std rs todo' with
          | Some ps => Some (p :: ps)
          | None => None
          end
      | None => None
      end
  | [] => Some []
  end.

(** [(a, b) => b.probability - a.probability] is positive. *)
Definition probAbove (a b : prediction) : bool :=
  Rlt_bool (probability a) (probability b).

Definition setStatus (s : appState) (st : status) : appState :=
  mkState (localData s) (predictions s) (nextPrediction s) (cellKm s)
          (lookbackDays s) (horizonDays s) (magThreshold s) st (alerts s).

(** [alert(msg); setTrainingStatus("")] *)
Definition refuse (s : appState) (msg : alertMsg) : appState :=
  mkState (localData s) (predictions s) (nextPrediction s) (cellKm s)
          (lookbackDays s) (horizonDays s) (magThreshold s) StatusIdle
          (alerts s ++ [msg]).

(** [setPredictions], [setNextPrediction] and the final status. *)
Definition publish (s : appState) (ps : list prediction)
           (top : option prediction) : appState :=
  mkState (localData s) ps top (cellKm s)
          (lookbackDays s) (horizonDays s) (magThreshold s) StatusDone (alerts s).

(** The state after [trainAndPredict] has run to its end. *)
Definition trainAndPredict (s : appState) : appState :=
  let rs := localData s in
  if (List.length rs <? 30)%nat then refuse s AlertFewRows
  else
    let ds := buildDataset s rs in
    if (List.length (X ds) <? 30)%nat then refuse s AlertFewExamples
    else
      let xTensor := tensorOf (X ds) in
      let yTensor := map IZR (y ds) in
      let (mean, variance) := moments xTensor in
      let std := stdOf variance in
      let xNorm := normalize mean std xTensor in
      match fit xNorm yTensor with
      | None => setStatus s StatusError
      | Some m =>
          match scoreAll s m mean std rs rs with
          | None => setStatus s StatusError
          | Some preds =>
              let shown := rev preds in
              let sorted := sortBy probAbove shown in
              publish s shown (hd_error sorted)
          end
      end.

(** The normalisation parameters [mean] and [std] of a run. *)
Definition fitted (s : appState) : list R * list R :=
  let xTensor := tensorOf (X (buildDataset s (localData s))) in
  (fst (moments xTensor), stdOf (snd (moments xTensor))).

(** The arguments [xNorm] and [yTensor] of [model.fit]. *)
Definition fitInput (s : appState) : tensor2d * list R :=
  let ds := buildDataset s (localData s) in
  (normalize (fst (fitted s)) (snd (fitted s)) (tensorOf (X ds)), map IZR (y ds)).

(** The array [preds] at the end of the scoring loop. *)
Definition scored (s : appState) (m : Model) : option (list prediction) :=
  scoreAll s m (fst (fitted s)) (snd (fitted s)) (localData s) (localData s).

(** The three ways in which a run ends. *)
Inductive outcome (s : appState) : appState -> Prop :=
| Refused (msg : alertMsg) :
    (List.length (localData s) < 30
     \/ List.length (X (buildDataset s (localData s))) < 30)%nat ->
    outcome s (refuse s msg)
| Failed :
    (30 <= List.length (localData s))%nat ->
    (30 <= List.length (X (buildDataset s (localData s))))%nat ->
    (fit (fst (fitInput s)) (snd (fitInput s)) = None
     \/ exists m, fit (fst (fitInput s)) (snd (fitInput s)) = Some m
                  /\ scored s m = None) ->
    outcome s (setStatus s StatusError)
| Scored (m : Model) (preds : list prediction) :
    (30 <= List.length (localData s))%nat ->
    (30 <= List.length (X (buildDataset s (localData s))))%nat ->
    fit (fst (fitInput s)) (snd (fitInput s)) = Some m ->
    scored s m = Some preds ->
    outcome s (publish s (rev preds) (hd_error (sortBy probAbove (rev preds)))).

End Training.

(* ================================================================== *)
(** * The grid and the training set on rows with an invalid date *)
(* ================================================================== *)

(** [handleFile] keeps a row whose [Date] is invalid, so the [rows] of
    [groupByGrid] and of [buildDataset] may hold such rows.  The module
    [Wide] follows these two functions on them.  A time value
    [r.date.getTime()] is [None] when it is [NaN]: a comparison with it
    is false, arithmetic on it gives [NaN], and the comparator of the
    sort is not positive on it.  With such a comparator the order that
    [sort] leaves is the one of the engine; the insertion sort [sortBy]
    is one such order.  The latitude, the longitude and the magnitude
    are finite, as in the core.  On rows whose dates are all valid the
    definitions of this module are the ones of the core
    ([wide_buildDataset_valid]). *)

Module Wide.

Record row : Type := mkRow {
  date : option Z;     (** [r.date.getTime()]; [None] is [NaN] *)
  lat : Q;
  lon : Q;
  mag : Q;
  locate : string
}.

(** The row of [localData] for a parsed row whose numbers are finite. *)
Definition ofParsed (p : parsedRow) : option row :=
  match plat p, plon p, pmag p with
  | Js.Fin la, Js.Fin lo, Js.Fin m =>
      Some (mkRow (Js.getTime (pdate p)) la lo m (plocate p))
  | _, _, _ => None
  end.

(** [(a, b) => a.date - b.date] is positive. *)
Definition dateAbove (a b : row) : bool :=
  match date a, date b with
  | Some x, Some y => (y <? x)%Z
  | _, _ => false
  end.

(** ** [groupByGrid] *)

Record cell : Type := mkCell {
  gx : Z;
  gy : Z;
  degLat : R;
  rows : list row
}.

Definition grid : Type := list (cellKey * cell).

Definition gridHas (g : grid) (k : cellKey) : bool :=
  existsb (fun e => key_eqb k (fst e)) g.

Fixpoint gridPush (g : grid) (k : cellKey) (r : row) : grid :=
  match g with
  | (k', c) :: g' =>
      if key_eqb k k'
      then (k', mkCell (gx c) (gy c) (degLat c) (rows c ++ [r])) :: g'
      else (k', c) :: gridPush g' k r
  | [] => []
  end.

Definition gridCoords (degLat : R) (r : row) : cellKey :=
  let gy := floor (Q2R (lat r) / degLat)%R in
  let gx := floor (Q2R (lon r)
                   / orOne (degLat * cos ((Q2R (lat r) * PI) / 180)))%R in
  (gx, gy).

Section Grouping.

Variable coords : row -> cellKey.
Variable dLat : R.

Definition groupStep (g : grid) (r : row) : grid :=
  let k := coords r in
  let g1 := if gridHas g k then g
            else g ++ [(k, mkCell (fst k) (snd k) dLat [])] in
  gridPush g1 k r.

Definition groupWith (rs : list row) : grid := fold_left groupStep rs [].

End Grouping.

Definition groupByGrid (rs : list row) (cellKm : Q) : grid :=
  let degLat := (Q2R cellKm / 111)%R in
  groupWith (gridCoords degLat) degLat rs.

(** ** [buildDataset] *)

Section Dataset.

Local Open Scope Q_scope.

(** [t - ms] and [t + ms] for a time value [t]. *)
Definition minusMs (t : option Z) (ms : Q) : option Q :=
  match t with Some tv => Some (inject_Z tv - ms) | None => None end.

Definition plusMs (t : option Z) (ms : Q) : option Q :=
  match t with Some tv => Some (inject_Z tv + ms) | None => None end.

(** [a >= b] and [a <= b] for a time value [a] and a number [b]. *)
Definition geNum (a : option Z) (b : option Q) : bool :=
  match a, b with
  | Some x, Some y => Qle_bool y (inject_Z x)
  | _, _ => false
  end.

Definition leNum (a : option Z) (b : option Q) : bool :=
  match a, b with
  | Some x, Some y => Qle_bool (inject_Z x) y
  | _, _ => false
  end.

(** [a < b] for two time values. *)
Definition ltTime (a b : option Z) : bool :=
  match a, b with
  | Some x, Some y => (x <? y)%Z
  | _, _ => false
  end.

(** [(a - b) / 3600000] for two time values. *)
Definition hoursBetween (a b : option Z) : option Q :=
  match a, b with
  | Some x, Some y => Some (inject_Z (x - y) / 3600000)
  | _, _ => None
  end.

(** [{ cell, time, source }]; the time may be [NaN]. *)
Record metaRec : Type := mkMeta {
  mcell : cellKey;
  mtime : option Z;
  msource : string
}.

(** [{ X, y, meta }]; an entry [None] of a feature vector is [NaN]. *)
Record dataset : Type := mkDataset {
  X : list (list (option Q));
  y : list Z;
  meta : list metaRec
}.

(** [r.date.getTime() >= lookStart && r.date.getTime() < t] *)
Definition inLookback (lookStart : option Q) (t : option Z) (r : row) : bool :=
  geNum (date r) lookStart && ltTime (date r) t.

(** [r.date.getTime() > t && r.date.getTime() <= horizonEnd] *)
Definition inHorizon (t : option Z) (horizonEnd : option Q) (r : row) : bool :=
  ltTime t (date r) && leNum (date r) horizonEnd.

Definition sumMag (past : list row) : Q :=
  fold_left (fun s e => s + mag e) past 0.

Definition featureVector (cur : row) (t : option Z) (past : list row)
  : list (option Q) :=
  let cnt := List.length past in
  let avgMag := if (0 <? cnt)%nat then sumMag past / inject_Z (Z.of_nat cnt) else 0 in
  let lastTime :=
    if (0 <? List.length past)%nat
    then hoursBetween t (date (last past cur))
    else Some 999999 in
  [Some (lat cur); Some (lon cur); Some (inject_Z (Z.of_nat cnt)); Some avgMag; lastTime].

Variable s : appState.

Definition example (c : cell) (cellRows : list row) (cur : row)
  : list (option Q) * Z * metaRec :=
  let t := date cur in
  let lookStart := minusMs t (msOfDays (lookbackDays s)) in
  let past := filter (inLookback lookStart t) cellRows in
  let horizonEnd := plusMs t (msOfDays (horizonDays s)) in
  let futureEvents := filter (inHorizon t horizonEnd) cellRows in
  let label := if existsb (fun fe => Qle_bool (magThreshold s) (mag fe)) futureEvents
               then 1%Z else 0%Z in
  (featureVector cur t past, label, mkMeta (gx c, gy c) t (locate cur)).

Definition cellExamples (c : cell) : list (list (option Q) * Z * metaRec) :=
  let cellRows := sortBy dateAbove (rows c) in
  map (example c cellRows) (firstn (List.length cellRows - 1) cellRows).

Definition allExamples (rs : list row) : list (list (option Q) * Z * metaRec) :=
  flat_map (fun e => cellExamples (snd e)) (groupByGrid rs (cellKm s)).

Definition buildDataset (rs : list row) : dataset :=
  let ex := allExamples rs in
  mkDataset (map (fun e => fst (fst e)) ex)
            (map (fun e => snd (fst e)) ex)
            (map snd ex).

End Dataset.

End Wide.

(** An event of the core as a row of [localData]. *)
Definition widen (r : row) : Wide.row :=
  Wide.mkRow (Some (date r)) (lat r) (lon r) (mag r) (locate r).

Definition widenCell (c : cell) : Wide.cell :=
  Wide.mkCell (gx c) (gy c) (degLat c) (map widen (rows c)).

Definition widenEntry (e : cellKey * cell) : cellKey * Wide.cell :=
  (fst e, widenCell (snd e)).

Definition widenMeta (m : metaRec) : Wide.metaRec :=
  Wide.mkMeta (mcell m) (Some (mtime m)) (msource m).

Definition widenExample (ex : list Q * Z * metaRec)
  : list (option Q) * Z * Wide.metaRec :=
  (map Some (fst (fst ex)), snd (fst ex), widenMeta (snd ex)).

Definition widenDataset (ds : dataset) : Wide.dataset :=
  Wide.mkDataset (map (map Some) (X ds)) (y ds) (map widenMeta (meta ds)).

(** The event of the core for a row whose date is valid. *)
Definition narrow (r : Wide.row) : row :=
  mkRow (match Wide.date r with Some tv => tv | None => 0%Z end)
        (Wide.lat r) (Wide.lon r) (Wide.mag r) (Wide.locate r).

(* ================================================================== *)
(** * The grid cell as the specification words it *)
(* ================================================================== *)

Section GridSpec.

Local Open Scope R_scope.

(** Section 4.3 of the specification: [gy = floor(lat / degLat)],
    [degLon = degLat / cos(latitude)] with the divisor 1 in place of a
    zero cosine, and [gx = floor(lon / degLon)]. *)
Definition spec_gridCoords (degLat : R) (r : row) : cellKey :=
  let gy := floor (Q2R (lat r) / degLat) in
  let degLon := degLat / orOne (cos ((Q2R (lat r) * PI) / 180)) in
  let gx := floor (Q2R (lon r) / degLon) in
  (gx, gy).

End GridSpec.

(* ================================================================== *)
(** * Measures of a grid *)
(* ================================================================== *)

(** The number of rows held by all the cells of a grid. *)
Definition totalRows (g : grid) : nat :=
  list_sum (map (fun e => List.length (rows (snd e))) g).

(** A grid none of whose cells is empty. *)
Definition populated (g : grid) : Prop :=
  Forall (fun e => rows (snd e) <> []) g.

(* ================================================================== *)
(** * The label as the specification words it *)
(* ================================================================== *)

Section LabelSpec.

Local Open Scope Q_scope.

(** Some event of the cell lies in the horizon window [(t, t + horizon]]
    and reaches the magnitude threshold. *)
Definition qualifyingFuture (s : appState) (cellRows : list row) (t : Z) : Prop :=
  exists r, In r cellRows
            /\ (t < date r)%Z
            /\ inject_Z (date r) <= inject_Z t + msOfDays (horizonDays s)
            /\ magThreshold s <= mag r.

(** The example [ex] is the one of the event [cur] of the cell [c]: it
    carries the time of [cur], and its label is 1 exactly when the cell
    has a qualifying future event. *)
Definition labelledBy (s : appState) (c : cell) (cur : row)
           (ex : list Q * Z * metaRec) : Prop :=
  mtime (snd ex) = date cur
  /\ ((snd (fst ex) = 1%Z /\ qualifyingFuture s (rows c) (date cur))
      \/ (snd (fst ex) = 0%Z /\ ~ qualifyingFuture s (rows c) (date cur))).

(** Events in the order of their times. *)
Definition byTime (a b : row) : Prop := (date a <= date b)%Z.

End LabelSpec.

(* ================================================================== *)
(** * Sample inputs *)
(* ================================================================== *)

(** A trainer that always succeeds, with a network that answers 0. *)
Definition fitUnit (x : tensor2d) (labels : list R) : option unit := Some tt.
Definition predictZero (m : unit) (v : list R) : option R := Some 0%R.

(** One event per day at the same place. *)
Definition dailyRow (i : nat) : row :=
  mkRow (Z.of_nat i * 86400000) 15 100 3 "-".

Definition dailyRows (n : nat) : list row := map dailyRow (seq 0 n).

(** A session with [n] daily events and the default parameters of the
    form; nothing has been trained yet. *)
Definition session (n : nat) : appState :=
  mkState (dailyRows n) [] None 50 30 7 4 StatusIdle [].

(** Two events ten degrees of latitude apart, and a session that holds
    them with cells of 111 km. *)
Definition farRows : list row :=
  [mkRow 0 (21 # 2) 100 3 "-"; mkRow 86400000 (41 # 2) 100 3 "-"].

Definition farSession : appState :=
  mkState farRows [] None 111 30 7 4 StatusIdle [].

(** A file of 33 rows.  The first three are events at one place, the
    latest first: 6 January 2024, a row whose date cell is not a date,
    and 1 January 2024.  The other thirty are the days of March 2024 at
    a place fifteen degrees to the north.  Below, the rows of
    [localData] that [handleFile] makes of the file where local time is
    UTC. *)
Definition fileRow (latitude day : string) : rawRow :=
  [("DATE", day); ("LAT", latitude); ("LONG", "100"); ("M/I", "3")]%string.

Definition twoDigits (n : nat) : string :=
  String (ascii_of_nat (48 + n / 10))
         (String (ascii_of_nat (48 + n mod 10)) EmptyString).

Definition marchFile : list rawRow :=
  map (fun i => fileRow "30" (twoDigits (S i) ++ "/03/2024")) (seq 0 30).

Definition undatedFile : list rawRow :=
  [fileRow "15" "06/01/2024"; fileRow "15" "ab/cd/ef"; fileRow "15" "01/01/2024"]
  ++ marchFile.

Definition sixthJanuary : Wide.row :=
  Wide.mkRow (Some 1704499200000%Z) 15 100 3 "-".

Definition undated : Wide.row := Wide.mkRow None 15 100 3 "-".

Definition firstJanuary : Wide.row :=
  Wide.mkRow (Some 1704067200000%Z) 15 100 3 "-".

Definition marchRows : list Wide.row :=
  map (fun i => Wide.mkRow (Some (1709251200000 + Z.of_nat i * 86400000)%Z) 30 100 3 "-")
      (seq 0 30).

Definition undatedRows : list Wide.row :=
  [sixthJanuary; undated; firstJanuary] ++ marchRows.

(* ================================================================== *)
(** * The map layers of [App] *)
(* ================================================================== *)

Section Rendering.

(** [mapCenter]: the place of the last event of [localData], or the
    default centre [[15.8700, 100.9925]]. *)
Definition mapCenter (s : appState) : Q * Q :=
  match localData s with
  | r :: rs => (lat (last rs r), lon (last rs r))
  | [] => (1587 # 100, 1009925 # 10000)
  end.

(** [l.slice(-n)]: the last [n] elements, or all of them. *)
Definition sliceLast (A : Type) (n : nat) (l : list A) : list A :=
  skipn (List.length l - n) l.

(** The events that get a [Marker]: [localData.slice(-1000)]. *)
Definition markers (s : appState) : list row := sliceLast 1000 (localData s).

(** A [Rectangle]: its [bounds] (south-west and north-east corners) and
    the opacity in its colour [rgba(255,0,0,...)]. *)
Record rectangle : Type := mkRectangle {
  southWest : Q * Q;
  northEast : Q * Q;
  opacity : R
}.

(** The [Rectangle] of one prediction. *)
Definition rectangleOf (p : prediction) : rectangle :=
  mkRectangle ((lat (event p) - (8 # 100))%Q, (lon (event p) - (8 # 100))%Q)
              ((lat (event p) + (8 # 100))%Q, (lon (event p) + (8 # 100))%Q)
              (Rmin (9 / 10) (probability p)).

(** The rectangles drawn: [predictions.slice(0, 500).map(...)]. *)
Definition rectangles (s : appState) : list rectangle :=
  map rectangleOf (firstn 500 (predictions s)).

End Rendering.

(* ================================================================== *)
(** * What a cell of the grid holds *)
(* ================================================================== *)

(** The entry [e] of a grid built from the rows [done] with the
    coordinates [coords]: its cell carries the key, and its rows are the
    rows of [done] with that key, in the order of [done]. *)
Definition cellOf (coords : row -> cellKey) (dLat : R) (done : list row)
           (e : cellKey * cell) : Prop :=
  gx (snd e) = fst (fst e)
  /\ gy (snd e) = snd (fst e)
  /\ degLat (snd e) = dLat
  /\ rows (snd e) = filter (fun r => key_eqb (coords r) (fst e)) done.

(** The time of a parsed row, for rows whose date is valid. *)
Definition ptime (p : parsedRow) : Z :=
  match pdate p with
  | Js.ValidDate tv => tv
  | Js.InvalidDate => 0%Z
  end.

(** The number read from a cell of a row:
    [parseFloat((v || "").toString().replace(",", "."))]. *)
Definition cellNumber (v : option string) : Js.number :=
  Js.parseFloat (Js.replaceFirst "," "." (text (Js.orElse v (Some ""%string)))).

(** Parsed rows in the order of their times. *)
Definition byPTime (a b : parsedRow) : Prop := (ptime a <= ptime b)%Z.

(** The events that give a training example, each with its cell, in the
    order of the examples: all but the last event of every cell. *)
Definition slots (g : grid) : list (cell * row) :=
  flat_map (fun e =>
              map (pair (snd e))
                  (firstn (List.length (sortBy dateAbove (rows (snd e))) - 1)
                          (sortBy dateAbove (rows (snd e))))) g.

(** The events of [rs] that lie in the cell of [cur] and in its lookback
    window, in the order of [rs]. *)
Definition priorOf (s : appState) (rs : list row) (cur : row) : list row :=
  filter (fun p =>
            key_eqb (gridCoords (Q2R (cellKm s) / 111) p)
                    (gridCoords (Q2R (cellKm s) / 111) cur)
            && inLookback (inject_Z (date cur) - msOfDays (lookbackDays s))%Q (date cur) p)
         rs.

(** The sum of a list of numbers. *)
Definition sumQ (l : list Q) : Q := fold_right Qplus 0%Q l.

(** The events of [rs] that share the cell of [cur] and whose time lies
    in [[t - lookbackDays, t)], where [t] is the time of [cur] and a day
    has 86400000 milliseconds; in the order of [rs]. *)
Definition priorEvents (s : appState) (rs : list Wide.row) (cur : Wide.row)
  : list Wide.row :=
  filter (fun p =>
            key_eqb (Wide.gridCoords (Q2R (cellKm s) / 111) p)
                    (Wide.gridCoords (Q2R (cellKm s) / 111) cur)
            && match Wide.date p, Wide.date cur with
               | Some tp, Some t =>
                   Qle_bool (inject_Z t - lookbackDays s * 86400000)%Q (inject_Z tp)
                   && (tp <? t)%Z
               | _, _ => false
               end)
         rs.

(* ================================================================== *)
(** * Properties of the distance *)
(* ================================================================== *)

Section DistanceFacts.

Local Open Scope R_scope.

Lemma sin_half_sq (x : R) : sin (x / 2) ^ 2 = (1 - cos x) / 2.
Proof.
  replace x with (2 * (x / 2)) at 2 by field.
  rewrite cos_2a_sin. field.
Qed.

Lemma cos_cos_product (u v : R) :
  cos u * cos v = (cos (v - u) + cos (v + u)) / 2.
Proof.
  rewrite cos_minus, cos_plus. field.
Qed.

Lemma toRad_minus (a b : R) : toRad (b - a) = toRad b - toRad a.
Proof. unfold toRad. field. Qed.

(** The argument of the square root lies in [0, 1], so that neither
    [Math.sqrt] nor [Math.asin] leaves its domain. *)
Lemma haversineA_range (aLat aLon bLat bLon : R) :
  0 <= haversineA aLat aLon bLat bLon <= 1.
Proof.
  unfold haversineA; cbv zeta.
  rewrite (sin_half_sq (toRad (bLat - aLat))), (sin_half_sq (toRad (bLon - aLon))).
  rewrite cos_cos_product, toRad_minus.
  set (u := toRad aLat). set (v := toRad bLat).
  pose proof (COS_bound (v - u)) as [H1 H2].
  pose proof (COS_bound (v + u)) as [H3 H4].
  pose proof (COS_bound (toRad (bLon - aLon))) as [H5 H6].
  set (c1 := cos (v - u)) in *. set (c2 := cos (v + u)) in *.
  set (c3 := cos (toRad (bLon - aLon))) in *.
  split; nra.
Qed.

Lemma haversineA_sym (aLat aLon bLat bLon : R) :
  haversineA aLat aLon bLat bLon = haversineA bLat bLon aLat aLon.
Proof.
  unfold haversineA; cbv zeta.
  rewrite !sin_half_sq.
  replace (toRad (aLat - bLat)) with (- toRad (bLat - aLat)) by (unfold toRad; field).
  replace (toRad (aLon - bLon)) with (- toRad (bLon - aLon)) by (unfold toRad; field).
  rewrite !cos_neg. ring.
Qed.

Lemma haversineA_refl (lat0 lon0 : R) : haversineA lat0 lon0 lat0 lon0 = 0.
Proof.
  unfold haversineA; cbv zeta.
  replace (toRad (lat0 - lat0)) with 0 by (unfold toRad; field).
  replace (toRad (lon0 - lon0)) with 0 by (unfold toRad; field).
  replace (0 / 2) with 0 by field.
  rewrite sin_0. ring.
Qed.

Lemma asin_nonneg (x : R) : 0 <= x -> 0 <= asin x.
Proof.
  intros Hx. pose proof PI_RGT_0 as Hpi.
  unfold asin.
  destruct (Rle_dec x (-1)) as [H1 | H1]; [lra |].
  destruct (Rle_dec 1 x) as [H2 | H2]; [lra |].
  assert (Hd : 0 < sqrt (1 - x²)).
  { apply sqrt_lt_R0. unfold Rsqr. nra. }
  assert (Hq : 0 <= x / sqrt (1 - x²)).
  { apply Rmult_le_pos; [exact Hx | left; apply Rinv_0_lt_compat; exact Hd]. }
  destruct Hq as [Hq | Hq].
  - left. rewrite <- atan_0. apply atan_increasing. exact Hq.
  - rewrite <- Hq, atan_0. lra.
Qed.

(** C9: the great-circle distance is non-negative, zero from a point to
    itself, and symmetric. *)
Theorem haversineKm_metric (aLat aLon bLat bLon : R) :
  0 <= haversineKm aLat aLon bLat bLon
  /\ haversineKm aLat aLon aLat aLon = 0
  /\ haversineKm aLat aLon bLat bLon = haversineKm bLat bLon aLat aLon.
Proof.
  unfold haversineKm; cbv zeta. repeat split.
  - pose proof (asin_nonneg (sqrt_pos (haversineA aLat aLon bLat bLon))). nra.
  - rewrite haversineA_refl, sqrt_0, asin_0. ring.
  - rewrite (haversineA_sym aLat aLon bLat bLon). reflexivity.
Qed.

End DistanceFacts.

(* ================================================================== *)
(** * Properties of the grid coordinates *)
(* ================================================================== *)

Section GridFacts.

Local Open Scope R_scope.

Lemma floor_eq (x : R) (z : Z) : IZR z <= x < IZR z + 1 -> floor x = z.
Proof.
  intros [H1 H2]. unfold floor. symmetry. apply Int_part_spec. lra.
Qed.

Lemma orOne_nonzero (x : R) : x <> 0 -> orOne x = x.
Proof.
  intros H. unfold orOne. destruct (Req_dec_T x 0); [contradiction | reflexivity].
Qed.

Lemma orOne_zero : orOne 0 = 1.
Proof.
  unfold orOne. destruct (Req_dec_T 0 0); [reflexivity | contradiction].
Qed.

(** What the source computes: the longitude is divided by the PRODUCT of
    [degLat] and the cosine of the latitude, and by 1 when that product
    is zero. *)
Lemma gridCoords_code (dLat : R) (r : row) :
  snd (gridCoords dLat r) = floor (Q2R (lat r) / dLat)
  /\ (dLat * cos ((Q2R (lat r) * PI) / 180) <> 0 ->
      fst (gridCoords dLat r)
      = floor (Q2R (lon r) / (dLat * cos (toRad (Q2R (lat r))))))
  /\ (dLat * cos ((Q2R (lat r) * PI) / 180) = 0 ->
      fst (gridCoords dLat r) = floor (Q2R (lon r) / 1)).
Proof.
  unfold gridCoords, toRad; cbn [fst snd]. repeat split.
  - intros H. rewrite (orOne_nonzero H). reflexivity.
  - intros H. rewrite H, orOne_zero. reflexivity.
Qed.

Lemma cos_60_degrees : cos ((Q2R 60 * PI) / 180) = 1 / 2.
Proof.
  replace ((Q2R 60 * PI) / 180) with (PI / 3)
    by (unfold Q2R; cbn [Qnum Qden]; field).
  exact cos_PI3.
Qed.

(** The column of an event at latitude 60 and longitude 1.2 in cells of
    one degree, for a value [c] of the cosine of 60 degrees that is
    within a thousandth of one half: the quotient by [degLat * c], as in
    the source, is 2, and the quotient by [degLat / c], as in the
    specification, is 0.  Both quotients are far from an integer, so the
    columns do not depend on how the cosine is rounded. *)
Lemma columns_at_60_degrees (c : R) :
  Rabs (c - 1 / 2) <= 1 / 1000 ->
  floor ((6 / 5) / orOne (1 * c)) = 2%Z
  /\ floor ((6 / 5) / (1 / orOne c)) = 0%Z.
Proof.
  intros Hc.
  assert (Hb : 499 / 1000 <= c <= 501 / 1000).
  { unfold Rabs in Hc. destruct (Rcase_abs (c - 1 / 2)); lra. }
  assert (H2 : / c * c = 1) by (apply Rinv_l; lra).
  assert (Hi : 1000 / 501 <= / c <= 1000 / 499).
  { split.
    - apply Rmult_le_reg_r with (r := c); [lra |]. rewrite H2.
      replace (1000 / 501 * c) with (c * 1000 / 501) by field. lra.
    - apply Rmult_le_reg_r with (r := c); [lra |]. rewrite H2.
      replace (1000 / 499 * c) with (c * 1000 / 499) by field. lra. }
  rewrite !orOne_nonzero by lra.
  split; apply floor_eq.
  - replace (6 / 5 / (1 * c)) with (6 / 5 * / c) by (field; lra).
    simpl; lra.
  - replace (6 / 5 / (1 / c)) with (6 / 5 * c) by (field; lra).
    simpl; lra.
Qed.

(** C1: the row coordinate [gy] is [floor(lat / degLat)], as the
    specification says, but the column coordinate is not the specified
    one.  For a cell size of 111 km ([degLat = 1]) and an event at
    latitude 60, longitude 1.2, the source gives column
    [floor(1.2 / (1 * 0.5)) = 2], where [degLon = degLat / cos(lat)]
    gives column [floor(1.2 / (1 / 0.5)) = 0]; the two columns stay 2
    and 0 for every value of the cosine within a thousandth of 0.5. *)
Theorem gridCoords_differs_from_spec :
  let r := mkRow 0 60 (6 # 5) 5 "-" in
  let dLat := Q2R 111 / 111 in
  (forall r' d, snd (gridCoords d r') = snd (spec_gridCoords d r'))
  /\ gridCoords dLat r = (2%Z, 60%Z)
  /\ spec_gridCoords dLat r = (0%Z, 60%Z)
  /\ (forall c, Rabs (c - cos ((Q2R (lat r) * PI) / 180)) <= 1 / 1000 ->
        floor (Q2R (lon r) / orOne (dLat * c)) = 2%Z
        /\ floor (Q2R (lon r) / (dLat / orOne c)) = 0%Z).
Proof.
  cbv zeta.
  assert (Hd : Q2R 111 / 111 = 1) by (unfold Q2R; cbn [Qnum Qden]; field).
  assert (H1 : Q2R (6 # 5) = 6 / 5) by (unfold Q2R; cbn [Qnum Qden]; field).
  assert (H60 : Q2R 60 = 60) by (unfold Q2R; cbn [Qnum Qden]; field).
  split; [reflexivity |].
  assert (Hhalf : Rabs (1 / 2 - 1 / 2) <= 1 / 1000).
  { replace (1 / 2 - 1 / 2) with 0 by field. rewrite Rabs_R0. lra. }
  destruct (columns_at_60_degrees (1 / 2) Hhalf) as [Hcode Hspec].
  unfold gridCoords, spec_gridCoords; cbn [lat lon].
  rewrite Hd, cos_60_degrees, H1.
  repeat split.
  - f_equal; [exact Hcode |]. rewrite H60. apply floor_eq; simpl; lra.
  - f_equal.
    + exact Hspec.
    + rewrite H60. apply floor_eq; simpl; lra.
  - apply columns_at_60_degrees; assumption.
  - apply columns_at_60_degrees; assumption.
Qed.

End GridFacts.

(* ================================================================== *)
(** * Properties of the sort *)
(* ================================================================== *)

Section SortFacts.

Variable A : Type.
Variable above : A -> A -> bool.

Lemma insertSorted_perm (x : A) (l : list A) :
  Permutation (insertSorted above x l) (x :: l).
Proof.
  induction l as [| y l IH]; cbn.
  - reflexivity.
  - destruct (above x y).
    + rewrite IH. apply perm_swap.
    + reflexivity.
Qed.

Lemma sortBy_perm (l : list A) : Permutation (sortBy above l) l.
Proof.
  induction l as [| x l IH]; cbn.
  - constructor.
  - rewrite insertSorted_perm. constructor. exact IH.
Qed.

Lemma sortBy_length (l : list A) : List.length (sortBy above l) = List.length l.
Proof. apply Permutation_length, sortBy_perm. Qed.

(** An order [le] that the comparator decides: [above x y] is false
    exactly when [le x y]. *)
Variable le : A -> A -> Prop.
Hypothesis le_trans : forall a b c, le a b -> le b c -> le a c.
Hypothesis above_false : forall a b, above a b = false -> le a b.
Hypothesis above_true : forall a b, above a b = true -> le b a.

Lemma insertSorted_sorted (x : A) (l : list A) :
  StronglySorted le l -> StronglySorted le (insertSorted above x l).
Proof.
  induction l as [| y l IH]; cbn; intros Hs.
  - constructor; constructor.
  - inversion Hs as [| ? ? Hl Hy]; subst.
    destruct (above x y) eqn:E.
    + constructor; [apply IH; exact Hl |].
      apply Forall_forall. intros z Hz.
      apply (Permutation_in _ (insertSorted_perm x l)) in Hz.
      destruct Hz as [<- | Hz].
      * apply above_true; exact E.
      * rewrite Forall_forall in Hy. apply Hy; exact Hz.
    + constructor; [exact Hs |].
      constructor; [apply above_false; exact E |].
      eapply Forall_impl; [| exact Hy].
      intros z Hz. eapply le_trans; [apply above_false; exact E | exact Hz].
Qed.

Lemma sortBy_sorted (l : list A) : StronglySorted le (sortBy above l).
Proof.
  induction l as [| x l IH]; cbn.
  - constructor.
  - apply insertSorted_sorted; exact IH.
Qed.

Hypothesis le_refl : forall a, le a a.

Lemma sorted_last_max (l : list A) (d : A) :
  StronglySorted le l -> forall x, In x l -> le x (last l d).
Proof.
  induction 1 as [| y l Hs IH Hy]; intros x Hx.
  - destruct Hx.
  - destruct l as [| z l'].
    + destruct Hx as [<- | []]. apply le_refl.
    + change (last (y :: z :: l') d) with (last (z :: l') d).
      destruct Hx as [<- | Hx].
      * rewrite Forall_forall in Hy.
        apply le_trans with z; [apply Hy | apply IH]; left; reflexivity.
      * apply IH; exact Hx.
Qed.

End SortFacts.

(* ================================================================== *)
(** * Properties of the grouping *)
(* ================================================================== *)

Section GroupingFacts.

Variable coords : row -> cellKey.
Variable dLat : R.

Lemma key_eqb_refl (k : cellKey) : key_eqb k k = true.
Proof. unfold key_eqb. rewrite !Z.eqb_refl. reflexivity. Qed.

Lemma key_eqb_eq (a b : cellKey) : key_eqb a b = true <-> a = b.
Proof.
  unfold key_eqb. destruct a as [a1 a2], b as [b1 b2]; cbn.
  rewrite andb_true_iff, !Z.eqb_eq. split.
  - intros [-> ->]. reflexivity.
  - intros H. inversion H. split; reflexivity.
Qed.

Lemma gridPush_length (g : grid) (k : cellKey) (r : row) :
  List.length (gridPush g k r) = List.length g.
Proof.
  induction g as [| [k' c] g IH]; cbn; [reflexivity |].
  destruct (key_eqb k k'); cbn; [reflexivity | rewrite IH; reflexivity].
Qed.

Lemma gridPush_total (g : grid) (k : cellKey) (r : row) :
  gridHas g k = true -> totalRows (gridPush g k r) = S (totalRows g).
Proof.
  unfold totalRows.
  induction g as [| [k' c] g IH]; [discriminate |].
  cbn [gridHas existsb fst gridPush].
  destruct (key_eqb k k'); cbn [orb map list_sum fold_right snd rows].
  - intros _. rewrite length_app. cbn. lia.
  - intros H. specialize (IH H). unfold list_sum in IH. lia.
Qed.

Lemma gridPush_populated (g : grid) (k : cellKey) (r : row) :
  populated g -> populated (gridPush g k r).
Proof.
  unfold populated.
  induction g as [| [k' c] g IH]; cbn; intros H; [constructor |].
  inversion H as [| ? ? Hc Hg]; subst.
  destruct (key_eqb k k').
  - constructor; [| exact Hg]. cbn. destruct (rows c); discriminate.
  - constructor; [exact Hc | apply IH; exact Hg].
Qed.

Lemma gridPush_fresh (g : grid) (k : cellKey) (c : cell) (r : row) :
  gridHas g k = false ->
  gridPush (g ++ [(k, c)]) k r
  = g ++ [(k, mkCell (gx c) (gy c) (degLat c) (rows c ++ [r]))].
Proof.
  induction g as [| [k' c'] g IH]; cbn.
  - intros _. rewrite key_eqb_refl. reflexivity.
  - destruct (key_eqb k k'); cbn; [discriminate |].
    intros H. rewrite IH by exact H. reflexivity.
Qed.

Lemma totalRows_app (g h : grid) : totalRows (g ++ h) = (totalRows g + totalRows h)%nat.
Proof. unfold totalRows. rewrite map_app, list_sum_app. reflexivity. Qed.

Lemma groupStep_total (g : grid) (r : row) :
  totalRows (groupStep coords dLat g r) = S (totalRows g).
Proof.
  unfold groupStep; cbv zeta.
  destruct (gridHas g (coords r)) eqn:E.
  - apply gridPush_total; exact E.
  - rewrite gridPush_fresh by exact E.
    rewrite totalRows_app. unfold totalRows at 2. cbn. lia.
Qed.

Lemma groupStep_populated (g : grid) (r : row) :
  populated g -> populated (groupStep coords dLat g r).
Proof.
  intros H. unfold groupStep; cbv zeta.
  destruct (gridHas g (coords r)) eqn:E.
  - apply gridPush_populated; exact H.
  - rewrite gridPush_fresh by exact E.
    apply Forall_app. split; [exact H |].
    constructor; [cbn; discriminate | constructor].
Qed.

Lemma fold_groupStep_invariant (rs : list row) (g : grid) :
  populated g ->
  populated (fold_left (groupStep coords dLat) rs g)
  /\ totalRows (fold_left (groupStep coords dLat) rs g)
     = (totalRows g + List.length rs)%nat.
Proof.
  revert g. induction rs as [| r rs IH]; intros g Hg; cbn [fold_left List.length].
  - split; [exact Hg | lia].
  - destruct (IH _ (groupStep_populated r Hg)) as [H1 H2].
    split; [exact H1 |]. rewrite H2, groupStep_total. lia.
Qed.

Lemma groupWith_populated (rs : list row) : populated (groupWith coords dLat rs).
Proof. apply fold_groupStep_invariant. constructor. Qed.

Lemma groupWith_total (rs : list row) :
  totalRows (groupWith coords dLat rs) = List.length rs.
Proof.
  unfold groupWith.
  destruct (@fold_groupStep_invariant rs []) as [_ H]; [constructor |].
  rewrite H. reflexivity.
Qed.

(** Rows that share their coordinates end in one cell, in input order. *)
Lemma fold_groupStep_one_cell (k : cellKey) (rs : list row) (c : cell) :
  Forall (fun r => coords r = k) rs ->
  fold_left (groupStep coords dLat) rs [(k, c)]
  = [(k, mkCell (gx c) (gy c) (degLat c) (rows c ++ rs))].
Proof.
  revert c. induction rs as [| r rs IH]; intros c H; cbn [fold_left].
  - rewrite app_nil_r. destruct c; reflexivity.
  - inversion H as [| ? ? Hr Hrs]; subst.
    unfold groupStep at 2; cbv zeta. cbn [gridHas existsb fst].
    rewrite key_eqb_refl. cbn [orb gridPush]. rewrite key_eqb_refl.
    rewrite IH by exact Hrs. cbn [gx gy degLat rows].
    rewrite <- app_assoc. reflexivity.
Qed.

Lemma groupWith_one_cell (k : cellKey) (r : row) (rs : list row) :
  Forall (fun r' => coords r' = k) (r :: rs) ->
  groupWith coords dLat (r :: rs)
  = [(k, mkCell (fst k) (snd k) dLat (r :: rs))].
Proof.
  intros H. inversion H as [| ? ? Hr Hrs]; subst.
  unfold groupWith. cbn [fold_left].
  unfold groupStep at 2; cbv zeta. cbn [gridHas existsb app gridPush].
  rewrite key_eqb_refl.
  rewrite fold_groupStep_one_cell by exact Hrs. reflexivity.
Qed.

End GroupingFacts.

(* ================================================================== *)
(** * Properties of the training set *)
(* ================================================================== *)

Section DatasetFacts.

Local Open Scope Q_scope.

Variable s : appState.

Lemma msOfDays_days (d : Q) : msOfDays d == d * 86400000.
Proof. unfold msOfDays. ring. Qed.

Lemma sortByDate_sorted (l : list row) : StronglySorted byTime (sortBy dateAbove l).
Proof.
  apply sortBy_sorted; unfold byTime, dateAbove; intros.
  - lia.
  - apply Z.ltb_ge; assumption.
  - apply Z.ltb_lt in H; lia.
Qed.

Lemma firstn_removelast (A : Type) (l : list A) :
  firstn (List.length l - 1) l = removelast l.
Proof. rewrite Nat.sub_1_r. symmetry. apply removelast_firstn_len. Qed.

Lemma cellExamples_length (c : cell) :
  List.length (cellExamples s c) = (List.length (rows c) - 1)%nat.
Proof.
  unfold cellExamples; cbv zeta.
  rewrite length_map, length_firstn, sortBy_length. lia.
Qed.

Lemma examples_count (g : grid) :
  populated g ->
  (List.length (flat_map (fun e => cellExamples s (snd e)) g) + List.length g
   = totalRows g)%nat.
Proof.
  unfold populated, totalRows.
  induction 1 as [| [k c] g Hc Hg IH]; [reflexivity |].
  cbn [flat_map map list_sum fold_right List.length snd].
  rewrite length_app, cellExamples_length.
  cbn [snd] in Hc.
  assert (List.length (rows c) <> 0%nat) by (destruct (rows c); [contradiction | discriminate]).
  unfold list_sum in IH. lia.
Qed.

Lemma buildDataset_X_length (rs : list row) :
  List.length (X (buildDataset s rs)) = List.length (allExamples s rs).
Proof. unfold buildDataset; cbn. apply length_map. Qed.

Lemma dataset_count (rs : list row) :
  (List.length (X (buildDataset s rs)) + List.length (groupByGrid rs (cellKm s))
   = List.length rs)%nat.
Proof.
  rewrite buildDataset_X_length. unfold allExamples, groupByGrid.
  rewrite examples_count by apply groupWith_populated.
  apply groupWith_total.
Qed.

Lemma grid_nonempty (rs : list row) :
  rs <> [] -> (1 <= List.length (groupByGrid rs (cellKm s)))%nat.
Proof.
  intros Hrs. unfold groupByGrid.
  pose proof (groupWith_total (gridCoords (Q2R (cellKm s) / 111)) (Q2R (cellKm s) / 111) rs) as Ht.
  destruct (groupWith _ _ rs) as [| e g]; cbn; [| lia].
  destruct rs; [contradiction | discriminate].
Qed.

End DatasetFacts.

(* ================================================================== *)
(** * Properties of [trainAndPredict] *)
(* ================================================================== *)

Section TrainingFacts.

Variable Model : Type.
Variable fit : tensor2d -> list R -> option Model.
Variable predict : Model -> list R -> option R.

Lemma run_few_rows (s : appState) :
  (List.length (localData s) < 30)%nat -> trainAndPredict fit predict s = refuse s AlertFewRows.
Proof.
  intros H. unfold trainAndPredict; cbv zeta.
  apply Nat.ltb_lt in H. rewrite H. reflexivity.
Qed.

Lemma run_few_examples (s : appState) :
  (30 <= List.length (localData s))%nat ->
  (List.length (X (buildDataset s (localData s))) < 30)%nat ->
  trainAndPredict fit predict s = refuse s AlertFewExamples.
Proof.
  intros H1 H2. unfold trainAndPredict; cbv zeta.
  apply Nat.ltb_ge in H1. apply Nat.ltb_lt in H2. rewrite H1, H2. reflexivity.
Qed.

Lemma run_outcome (s : appState) : outcome fit predict s (trainAndPredict fit predict s).
Proof.
  unfold trainAndPredict; cbv zeta.
  destruct (List.length (localData s) <? 30)%nat eqn:E1.
  { apply Refused. left. apply Nat.ltb_lt; exact E1. }
  destruct (List.length (X (buildDataset s (localData s))) <? 30)%nat eqn:E2.
  { apply Refused. right. apply Nat.ltb_lt; exact E2. }
  apply Nat.ltb_ge in E1, E2.
  cbv beta iota zeta delta [moments].
  match goal with |- context [fit ?a ?b] => destruct (fit a b) as [m |] eqn:Ef end.
  - match goal with |- context [scoreAll ?p ?s ?m ?a ?b ?c ?d] =>
      destruct (scoreAll p s m a b c d) as [preds |] eqn:Es end.
    + apply (@Scored _ fit predict s m preds E1 E2 Ef Es).
    + apply (@Failed _ fit predict s E1 E2). right. exists m. split; [exact Ef | exact Es].
  - apply (@Failed _ fit predict s E1 E2). left. exact Ef.
Qed.

Lemma app_one_neq (A : Type) (l : list A) (x : A) : l ++ [x] <> l.
Proof.
  intros H. apply (f_equal (@List.length A)) in H.
  rewrite length_app in H. cbn in H. lia.
Qed.

End TrainingFacts.

(* ================================================================== *)
(** * The minimum-data gate *)
(* ================================================================== *)

Section Gate.

Lemma dailyRows_length (n : nat) : List.length (dailyRows n) = n.
Proof. unfold dailyRows. rewrite length_map, length_seq. reflexivity. Qed.

Lemma dailyRows_one_cell (s : appState) (n : nat) :
  groupByGrid (dailyRows (S n)) (cellKm s)
  = [(gridCoords (Q2R (cellKm s) / 111) (dailyRow 0),
      mkCell (fst (gridCoords (Q2R (cellKm s) / 111) (dailyRow 0)))
             (snd (gridCoords (Q2R (cellKm s) / 111) (dailyRow 0)))
             (Q2R (cellKm s) / 111) (dailyRows (S n)))].
Proof.
  unfold groupByGrid; cbv zeta.
  apply (@groupWith_one_cell _ _ _ (dailyRow 0) (map dailyRow (seq 1 n))).
  change (dailyRow 0 :: map dailyRow (seq 1 n)) with (dailyRows (S n)).
  unfold dailyRows. apply Forall_map, Forall_forall. intros i _. reflexivity.
Qed.

Lemma dailyRows_examples (s : appState) (n : nat) :
  List.length (X (buildDataset s (dailyRows (S n)))) = n.
Proof.
  pose proof (dataset_count s (dailyRows (S n))) as H.
  rewrite dailyRows_one_cell, dailyRows_length in H. cbn [List.length] in H. lia.
Qed.

(** C10: the number of training examples is the number of events minus
    the number of grid cells, none of which is empty; so 30 events give
    at most 29 examples, and a run that is not refused has at least 31
    events. *)
Theorem examples_are_events_minus_cells (s : appState) (rs : list row) :
  populated (groupByGrid rs (cellKm s))
  /\ (List.length (X (buildDataset s rs)) + List.length (groupByGrid rs (cellKm s))
      = List.length rs)%nat
  /\ (List.length rs = 30%nat -> (List.length (X (buildDataset s rs)) <= 29)%nat)
  /\ (forall (Model : Type) (fit : tensor2d -> list R -> option Model)
             (predict : Model -> list R -> option R),
         alerts (trainAndPredict fit predict s) = alerts s ->
         (31 <= List.length (localData s))%nat).
Proof.
  split; [apply groupWith_populated |].
  split; [apply dataset_count |].
  split.
  - intros H30.
    pose proof (dataset_count s rs) as Hc.
    assert (Hne : rs <> []) by (destruct rs; [discriminate | discriminate]).
    pose proof (grid_nonempty s Hne). lia.
  - intros Model fit predict Ha.
    destruct (run_outcome fit predict s) as [msg _ | H1 H2 _ | m preds H1 H2 _ _].
    + cbn in Ha. apply app_one_neq in Ha. destruct Ha.
    + pose proof (dataset_count s (localData s)) as Hc.
      assert (Hne : localData s <> []) by (destruct (localData s); [cbn in H1; lia | discriminate]).
      pose proof (grid_nonempty s Hne). lia.
    + pose proof (dataset_count s (localData s)) as Hc.
      assert (Hne : localData s <> []) by (destruct (localData s); [cbn in H1; lia | discriminate]).
      pose proof (grid_nonempty s Hne). lia.
Qed.

Lemma examples_are_events_minus_cells_witness :
  (List.length (X (buildDataset (session 30) (dailyRows 30))) <= 29)%nat
  /\ (31 <= List.length (localData (session 31)))%nat.
Proof.
  split.
  - apply (proj1 (proj2 (proj2 (examples_are_events_minus_cells (session 30) (dailyRows 30))))).
    apply dailyRows_length.
  - apply (proj2 (proj2 (proj2 (examples_are_events_minus_cells (session 31) [])))
             unit fitUnit predictZero).
    destruct (run_outcome fitUnit predictZero (session 31))
      as [msg [H | H] | H1 H2 _ | m preds H1 H2 _ _]; try reflexivity.
    + cbn [session localData] in H. rewrite dailyRows_length in H. lia.
    + cbn [session localData] in H.
      rewrite (dailyRows_examples (session 31) 30) in H. lia.
Defined.

(** C4: below 30 events or below 30 training examples the run is refused:
    one alert is raised, the status is the idle one, the predictions and
    the headline prediction stay as they were, and the classifier is not
    consulted.  A run that ends in the error status raises no alert. *)
Theorem insufficient_data_refused
        (Model : Type) (fit : tensor2d -> list R -> option Model)
        (predict : Model -> list R -> option R) (s : appState) :
  (List.length (localData s) < 30
   \/ List.length (X (buildDataset s (localData s))) < 30)%nat ->
  let s' := trainAndPredict fit predict s in
  trainingStatus s' = StatusIdle
  /\ (alerts s' = alerts s ++ [AlertFewRows]
      \/ alerts s' = alerts s ++ [AlertFewExamples])
  /\ predictions s' = predictions s
  /\ nextPrediction s' = nextPrediction s
  /\ localData s' = localData s
  /\ (forall (Model' : Type) (fit' : tensor2d -> list R -> option Model')
             (predict' : Model' -> list R -> option R),
         trainAndPredict fit' predict' s = s')
  /\ (forall s2, trainingStatus (trainAndPredict fit predict s2) = StatusError ->
                 alerts (trainAndPredict fit predict s2) = alerts s2).
Proof.
  intros Hgate s'.
  assert (Hrun : forall (M : Type) (f : tensor2d -> list R -> option M)
                        (p : M -> list R -> option R),
             trainAndPredict f p s = refuse s AlertFewRows
             \/ trainAndPredict f p s = refuse s AlertFewExamples).
  { intros M f p.
    destruct (Nat.lt_ge_cases (List.length (localData s)) 30) as [H | H].
    - left. apply run_few_rows; exact H.
    - right. apply run_few_examples; [exact H |].
      destruct Hgate as [H' | H']; [lia | exact H']. }
  assert (Hsame : forall (M : Type) (f : tensor2d -> list R -> option M)
                         (p : M -> list R -> option R),
             trainAndPredict f p s = s').
  { intros M f p. subst s'.
    destruct (Nat.lt_ge_cases (List.length (localData s)) 30) as [H | H].
    - rewrite !run_few_rows by exact H. reflexivity.
    - assert (H' : (List.length (X (buildDataset s (localData s))) < 30)%nat)
        by (destruct Hgate as [H' | H']; [lia | exact H']).
      rewrite !run_few_examples by assumption. reflexivity. }
  assert (Herr : forall s2, trainingStatus (trainAndPredict fit predict s2) = StatusError ->
                            alerts (trainAndPredict fit predict s2) = alerts s2).
  { intros s2 H2.
    destruct (run_outcome fit predict s2); cbn in *; try discriminate; reflexivity. }
  subst s'.
  destruct (Hrun Model fit predict) as [E | E]; rewrite E in *; cbn;
    repeat split; auto.
Qed.

Lemma insufficient_data_refused_witness :
  trainingStatus (trainAndPredict fitUnit predictZero (session 29)) = StatusIdle.
Proof.
  apply (@insufficient_data_refused unit fitUnit predictZero (session 29)).
  left. vm_compute. lia.
Defined.

End Gate.

(* ================================================================== *)
(** * The scored events *)
(* ================================================================== *)

Section Scoring.

Lemma scoreAll_events (Model : Type) (predict : Model -> list R -> option R)
      (s : appState) (m : Model) (mean std : list R) (rs todo : list row)
      (ps : list prediction) :
  scoreAll predict s m mean std rs todo = Some ps -> map event ps = todo.
Proof.
  revert ps. induction todo as [| r todo IH]; intros ps H; cbn [scoreAll] in H.
  - inversion H. reflexivity.
  - destruct (score predict s m mean std rs r) as [p |] eqn:Ep; [| discriminate].
    destruct (scoreAll predict s m mean std rs todo) as [ps' |]; [| discriminate].
    inversion H; subst. cbn [map]. rewrite (IH ps' eq_refl). f_equal.
    unfold score in Ep. destruct (predict m _); [| discriminate].
    inversion Ep. reflexivity.
Qed.

Lemma scored_events (Model : Type) (predict : Model -> list R -> option R)
      (s : appState) (m : Model) (ps : list prediction) :
  scored predict s m = Some ps -> map event ps = localData s.
Proof. unfold scored. apply scoreAll_events. Qed.

Lemma scoreAll_zero (s : appState) (mean std : list R) (rs todo : list row) :
  scoreAll predictZero s tt mean std rs todo <> None.
Proof.
  induction todo as [| r todo IH]; cbn [scoreAll]; [discriminate |].
  unfold score at 1, predictZero at 1.
  destruct (scoreAll predictZero s tt mean std rs todo); [discriminate | contradiction].
Qed.

Lemma session_trained (n : nat) :
  (31 <= n)%nat ->
  exists ps,
    scored predictZero (session n) tt = Some ps
    /\ trainAndPredict fitUnit predictZero (session n)
       = publish (session n) (rev ps) (hd_error (sortBy probAbove (rev ps))).
Proof.
  intros Hn.
  destruct (run_outcome fitUnit predictZero (session n))
    as [msg [H | H] | H1 H2 [Hf | [m [_ Hf]]] | m ps H1 H2 Hf Hs].
  - cbn [session localData] in H. rewrite dailyRows_length in H. lia.
  - cbn [session localData] in H. destruct n as [| n]; [lia |].
    rewrite (dailyRows_examples (session (S n)) n) in H. lia.
  - discriminate Hf.
  - destruct m. exfalso. revert Hf. apply scoreAll_zero.
  - destruct m. exists ps. split; [exact Hs | reflexivity].
Qed.

(** C6, as the source has it: a run that ends in the done status holds one
    scored record per event, and the published list is the time-sorted
    input in REVERSE order, the latest event first. *)
Theorem predictions_latest_first
        (Model : Type) (fit : tensor2d -> list R -> option Model)
        (predict : Model -> list R -> option R) (s : appState) :
  trainingStatus (trainAndPredict fit predict s) = StatusDone ->
  List.length (predictions (trainAndPredict fit predict s)) = List.length (localData s)
  /\ map event (predictions (trainAndPredict fit predict s)) = rev (localData s)
  /\ Forall2 (fun r p => event p = r)
             (localData s) (rev (predictions (trainAndPredict fit predict s))).
Proof.
  intros Hdone.
  destruct (run_outcome fit predict s) as [msg _ | H1 H2 Hf | m ps H1 H2 Hf Hs];
    cbn [trainingStatus refuse setStatus publish predictions] in *;
    try discriminate.
  assert (Hev : map event (rev ps) = rev (localData s)).
  { rewrite map_rev, (scored_events _ _ _ Hs). reflexivity. }
  split; [| split].
  - rewrite <- (length_map event), Hev. apply length_rev.
  - exact Hev.
  - rewrite rev_involutive.
    rewrite <- (scored_events _ _ _ Hs).
    clear. induction ps as [| p ps IH]; cbn; constructor; [reflexivity | exact IH].
Qed.

Lemma predictions_latest_first_witness :
  map event (predictions (trainAndPredict fitUnit predictZero (session 31)))
  = rev (localData (session 31)).
Proof.
  apply (@predictions_latest_first unit fitUnit predictZero (session 31)).
  destruct (@session_trained 31) as [ps [_ E]]; [lia |].
  rewrite E. reflexivity.
Defined.

(** C6 as stated fails: in a run that ends in the done status the
    published list is not in the order of the input. *)
Lemma predictions_not_in_input_order :
  trainingStatus (trainAndPredict fitUnit predictZero (session 31)) = StatusDone
  /\ map event (predictions (trainAndPredict fitUnit predictZero (session 31)))
     <> localData (session 31).
Proof.
  destruct (@session_trained 31) as [ps [Hs E]]; [lia |].
  rewrite E. cbn [trainingStatus publish predictions].
  split; [reflexivity |].
  rewrite map_rev, (scored_events _ _ _ Hs).
  cbn [session localData]. intros H.
  apply (f_equal (fun l => option_map date (hd_error l))) in H.
  vm_compute in H. discriminate H.
Qed.

End Scoring.

(* ================================================================== *)
(** * The labels of the training set *)
(* ================================================================== *)

Section Labels.

Local Open Scope Q_scope.

Variable s : appState.

Lemma existsb_filter (A : Type) (p q : A -> bool) (l : list A) :
  existsb p (filter q l) = true <-> exists x, In x l /\ q x = true /\ p x = true.
Proof.
  rewrite existsb_exists. split.
  - intros [x [Hin Hp]]. apply filter_In in Hin. exists x. tauto.
  - intros [x [Hin [Hq Hp]]]. exists x. split; [apply filter_In; tauto | exact Hp].
Qed.

Lemma inHorizon_spec (t : Z) (horizonEnd : Q) (r : row) :
  inHorizon t horizonEnd r = true
  <-> (t < date r)%Z /\ inject_Z (date r) <= horizonEnd.
Proof.
  unfold inHorizon. rewrite andb_true_iff, Z.ltb_lt, Qle_bool_iff. tauto.
Qed.

Lemma future_found (c : cell) (cellRows : list row) (cur : row) :
  Permutation cellRows (rows c) ->
  existsb (fun fe => Qle_bool (magThreshold s) (mag fe))
          (filter (inHorizon (date cur) (inject_Z (date cur) + msOfDays (horizonDays s)))
                  cellRows) = true
  <-> qualifyingFuture s (rows c) (date cur).
Proof.
  intros Hperm. rewrite existsb_filter. unfold qualifyingFuture.
  split; intros [r [Hin [H1 H2]]]; exists r.
  - apply inHorizon_spec in H1. apply Qle_bool_iff in H2.
    split; [eapply Permutation_in; eassumption | tauto].
  - split; [eapply Permutation_in; [symmetry |]; eassumption |].
    destruct H2 as [H2 H3].
    split; [apply inHorizon_spec; tauto | apply Qle_bool_iff; exact H3].
Qed.

Lemma example_labelled (c : cell) (cellRows : list row) (cur : row) :
  Permutation cellRows (rows c) ->
  labelledBy s c cur (example s c cellRows cur).
Proof.
  intros Hperm. unfold labelledBy, example; cbv zeta; cbn [fst snd mtime].
  split; [reflexivity |].
  pose proof (@future_found c cellRows cur Hperm) as Hf.
  destruct (existsb _ _).
  - left. split; [reflexivity | apply Hf; reflexivity].
  - right. split; [reflexivity |]. intros Hq. apply Hf in Hq. discriminate Hq.
Qed.

Lemma cell_split (c : cell) :
  rows c <> [] ->
  exists older newest,
    sortBy dateAbove (rows c) = older ++ [newest]
    /\ cellExamples s c = map (example s c (sortBy dateAbove (rows c))) older.
Proof.
  intros Hne.
  assert (Hs : sortBy dateAbove (rows c) <> []).
  { intros H. apply Hne. apply Permutation_nil.
    rewrite <- H. apply sortBy_perm. }
  destruct (exists_last Hs) as [older [newest E]].
  exists older, newest. split; [exact E |].
  unfold cellExamples; cbv zeta.
  rewrite firstn_removelast, E, removelast_last. reflexivity.
Qed.

Lemma sorted_app_last (older : list row) (newest : row) :
  StronglySorted byTime (older ++ [newest]) ->
  forall r, In r (older ++ [newest]) -> (date r <= date newest)%Z.
Proof.
  intros Hs r Hr.
  assert (Hl : last (older ++ [newest]) newest = newest) by apply last_last.
  rewrite <- Hl.
  apply (@sorted_last_max _ byTime); unfold byTime; auto; intros; lia.
Qed.

(** The training set of events whose dates are valid.  The arrays [X],
    [y] and [meta] hold the examples of the cells, cell after cell.  Each
    cell's events, taken in time order, split into the earlier ones and
    a most recent one; the cell gives one example per earlier event, in
    that order, and none for the most recent one.  The label of the
    example of an event at time [t] is 1 when some event of the cell has
    its time in [(t, t + horizonDays]] and its magnitude at least the
    threshold, and 0 otherwise. *)
Lemma buildDataset_labels (rs : list row) :
  let ds := buildDataset s rs in
  combine (combine (X ds) (y ds)) (meta ds)
  = flat_map (fun e => cellExamples s (snd e)) (groupByGrid rs (cellKm s))
  /\ Forall
       (fun e =>
          exists older newest,
            Permutation (older ++ [newest]) (rows (snd e))
            /\ StronglySorted byTime (older ++ [newest])
            /\ (forall r, In r (rows (snd e)) -> (date r <= date newest)%Z)
            /\ Forall2 (labelledBy s (snd e)) older (cellExamples s (snd e)))
       (groupByGrid rs (cellKm s)).
Proof.
  cbv zeta. split.
  - unfold buildDataset, allExamples; cbn [X y meta].
    generalize (flat_map (fun e => cellExamples s (snd e)) (groupByGrid rs (cellKm s))) as ex.
    induction ex as [| [[x l] m] ex IH]; cbn; [reflexivity |].
    f_equal. exact IH.
  - pose proof (groupWith_populated (gridCoords (Q2R (cellKm s) / 111))
                  (Q2R (cellKm s) / 111) rs) as Hpop.
    unfold groupByGrid; cbv zeta. unfold populated in Hpop.
    eapply Forall_impl; [| exact Hpop].
    intros [k c] Hne; cbn [snd] in *.
    destruct (@cell_split c Hne) as [older [newest [E Hex]]].
    pose proof (sortBy_perm dateAbove (rows c)) as Hperm.
    pose proof (sortByDate_sorted (rows c)) as Hsorted.
    rewrite E in Hperm, Hsorted.
    exists older, newest. repeat split.
    + exact Hperm.
    + exact Hsorted.
    + intros r Hr. apply (@sorted_app_last older newest Hsorted).
      eapply Permutation_in; [symmetry; exact Hperm | exact Hr].
    + rewrite Hex.
      assert (Hall : forall cur, labelledBy s c cur
                        (example s c (sortBy dateAbove (rows c)) cur)).
      { intros cur. apply example_labelled. apply sortBy_perm. }
      clear Hex E Hperm Hsorted. induction older as [| o older IH]; cbn; constructor.
      * apply Hall.
      * apply IH.
Qed.

End Labels.

(* ================================================================== *)
(** * Three events in one cell *)
(* ================================================================== *)

Section ThreeEvents.

Local Open Scope Q_scope.

Lemma Qle_bool_false (a b : Q) : b < a -> Qle_bool a b = false.
Proof.
  intros H. destruct (Qle_bool a b) eqn:E; [| reflexivity].
  apply Qle_bool_iff in E. exfalso. apply (Qlt_not_le _ _ H E).
Qed.

Ltac order_Q :=
  unfold msOfDays, Qle, Qlt, Qminus, Qplus, Qopp, Qmult, inject_Z;
  cbn [Qnum Qden]; lia.

Ltac decide_tests :=
  repeat match goal with
    | |- context [(?a <? ?b)%Z] =>
        first [ replace (a <? b)%Z with true by (symmetry; apply Z.ltb_lt; lia)
              | replace (a <? b)%Z with false by (symmetry; apply Z.ltb_ge; lia) ]
    | |- context [Qle_bool ?a ?b] =>
        first [ replace (Qle_bool a b) with true by (symmetry; apply Qle_bool_iff; order_Q)
              | replace (Qle_bool a b) with false by (symmetry; apply Qle_bool_false; order_Q) ]
    end.

(** C5: events at [T], [T + 10 days] and [T + 40 days] in one cell, with
    magnitudes 3, 3 and 5, threshold 4, horizon 35 days and lookback 30
    days, give exactly two examples: the event at [T] with label 0 and no
    prior event, and the event at [T + 10 days] with label 1 and one
    prior event, 240 hours earlier; the event at [T + 40 days] gives
    none. *)
Theorem three_events_two_examples
        (s : appState) (T : Z) (la1 lo1 la2 lo2 la3 lo3 : Q) (n1 n2 n3 : string) :
  lookbackDays s = 30 -> horizonDays s = 35 -> magThreshold s = 4 ->
  let e1 := mkRow T la1 lo1 3 n1 in
  let e2 := mkRow (T + 10 * 86400000) la2 lo2 3 n2 in
  let e3 := mkRow (T + 40 * 86400000) la3 lo3 5 n3 in
  gridCoords (Q2R (cellKm s) / 111) e2 = gridCoords (Q2R (cellKm s) / 111) e1 ->
  gridCoords (Q2R (cellKm s) / 111) e3 = gridCoords (Q2R (cellKm s) / 111) e1 ->
  let ds := buildDataset s [e1; e2; e3] in
  y ds = [0%Z; 1%Z]
  /\ map mtime (meta ds) = [T; (T + 10 * 86400000)%Z]
  /\ Forall2 (Forall2 Qeq) (X ds)
             [[la1; lo1; 0; 0; 999999]; [la2; lo2; 1; 3; 240]].
Proof.
  intros Hlook Hhor Hthr e1 e2 e3 H2 H3 ds.
  assert (Hgrid : groupByGrid [e1; e2; e3] (cellKm s)
                  = [(gridCoords (Q2R (cellKm s) / 111) e1,
                      mkCell (fst (gridCoords (Q2R (cellKm s) / 111) e1))
                             (snd (gridCoords (Q2R (cellKm s) / 111) e1))
                             (Q2R (cellKm s) / 111) [e1; e2; e3])]).
  { unfold groupByGrid; cbv zeta. apply groupWith_one_cell.
    repeat constructor; assumption. }
  assert (Hsort : sortBy dateAbove [e1; e2; e3] = [e1; e2; e3]).
  { unfold sortBy, dateAbove, e1, e2, e3.
    repeat (progress (cbn [fold_right insertSorted date]; decide_tests)).
    reflexivity. }
  subst ds. unfold buildDataset, allExamples. rewrite Hgrid.
  cbn [flat_map snd app]. rewrite app_nil_r.
  unfold cellExamples; cbv zeta; cbn [rows]. rewrite Hsort.
  cbn [List.length Nat.sub firstn map X y meta].
  unfold example; cbv zeta. rewrite Hlook, Hhor, Hthr.
  cbn [fst snd mtime].
  unfold inLookback, inHorizon, e1, e2, e3.
  repeat (progress (cbn [andb filter existsb orb date mag]; decide_tests)).
  repeat split.
  unfold featureVector, sumMag;
    cbn [List.length Nat.ltb Nat.leb fold_left last lat lon mag date].
  repeat constructor; try reflexivity.
  unfold Qeq, Qdiv, Qmult, Qinv, inject_Z; cbn [Qnum Qden].
  replace (T + 10 * 86400000 - T)%Z with 864000000%Z by lia. reflexivity.
Qed.

Lemma three_events_two_examples_witness :
  y (buildDataset (mkState [] [] None 50 30 35 4 StatusIdle [])
       [mkRow 0 15 100 3 "a"; mkRow 864000000 15 100 3 "b";
        mkRow 3456000000 15 100 5 "c"])
  = [0%Z; 1%Z].
Proof.
  apply (@three_events_two_examples
           (mkState [] [] None 50 30 35 4 StatusIdle [])
           0 15 100 15 100 15 100 "a" "b" "c"); reflexivity.
Defined.

End ThreeEvents.

(* ================================================================== *)
(** * Properties of the date normaliser and of the ingestion *)
(* ================================================================== *)

Section DateFacts.

Import Js.
Local Open Scope Z_scope.

Variable tzOffset : Z.
Variable dateParse : string -> Date.

Lemma TimeClip_valid (t : Z) :
  Z.abs t <= 8640000000000000 -> TimeClip t = ValidDate t.
Proof.
  intros H. unfold TimeClip.
  destruct (Z.ltb_spec 8640000000000000 (Z.abs t)); [lia | reflexivity].
Qed.

(** The tokens of the four date texts reach the [Date] constructor as the
    year 2023, the month index 11 and the day 31, at 00:00:00. *)
Lemma parse_day_first :
  parseLocalDate tzOffset dateParse (Some "31/12/2023"%string) None
  = Some (newDate tzOffset (Fin 2023) (Fin 11) (Fin 31) (Fin 0) (Fin 0) (Fin 0)).
Proof. cbv -[newDate]. reflexivity. Qed.

Lemma parse_year_first :
  parseLocalDate tzOffset dateParse (Some "2023-12-31"%string) None
  = Some (newDate tzOffset (Fin 2023) (Fin 11) (Fin 31) (Fin 0) (Fin 0) (Fin 0)).
Proof. cbv -[newDate]. reflexivity. Qed.

Lemma parse_buddhist_day_first :
  parseLocalDate tzOffset dateParse (Some "31/12/2566"%string) None
  = Some (newDate tzOffset (Fin 2023) (Fin 11) (Fin 31) (Fin 0) (Fin 0) (Fin 0)).
Proof. cbv -[newDate]. reflexivity. Qed.

Lemma parse_buddhist_year_first :
  parseLocalDate tzOffset dateParse (Some "2566-12-31"%string) None
  = Some (newDate tzOffset (Fin 2023) (Fin 11) (Fin 31) (Fin 0) (Fin 0) (Fin 0)).
Proof. cbv -[newDate]. reflexivity. Qed.

(** Local midnight of 31 December 2023: day 19722 of the epoch. *)
Lemma newDate_last_day_2023 :
  newDate tzOffset (Fin 2023) (Fin 11) (Fin 31) (Fin 0) (Fin 0) (Fin 0)
  = TimeClip (19722 * msPerDay - tzOffset).
Proof. unfold newDate. do 2 f_equal. Qed.

Lemma calendar_of_local_midnight (day : Z) :
  localDay tzOffset (ValidDate (day * msPerDay - tzOffset)) = Some day.
Proof.
  unfold localDay. f_equal.
  replace (day * msPerDay - tzOffset + tzOffset) with (day * msPerDay) by lia.
  apply Z.div_mul. unfold msPerDay. lia.
Qed.

(** C7: "31/12/2023" and "2023-12-31" parse to the same date, whose
    calendar fields are 31 December 2023 (month index 11); the year 2566
    of the Buddhist era becomes 2023. *)
Theorem parseLocalDate_same_day :
  Z.abs tzOffset <= msPerDay ->
  let d := ValidDate (19722 * msPerDay - tzOffset) in
  parseLocalDate tzOffset dateParse (Some "31/12/2023"%string) None = Some d
  /\ parseLocalDate tzOffset dateParse (Some "2023-12-31"%string) None = Some d
  /\ parseLocalDate tzOffset dateParse (Some "31/12/2566"%string) None = Some d
  /\ parseLocalDate tzOffset dateParse (Some "2566-12-31"%string) None = Some d
  /\ getFullYear tzOffset d = Some 2023
  /\ getMonth tzOffset d = Some 11
  /\ getDate tzOffset d = Some 31.
Proof.
  intros Htz d.
  assert (Hclip : TimeClip (19722 * msPerDay - tzOffset) = d).
  { apply TimeClip_valid. unfold msPerDay in *. lia. }
  rewrite parse_day_first, parse_year_first,
          parse_buddhist_day_first, parse_buddhist_year_first,
          newDate_last_day_2023, Hclip.
  unfold getFullYear, getMonth, getDate, d.
  rewrite calendar_of_local_midnight.
  repeat split; reflexivity.
Qed.

(** The only rows whose date gives [null] are those whose date cell is
    missing or empty. *)
Lemma parseLocalDate_null (dateStr timeStr : option string) :
  parseLocalDate tzOffset dateParse dateStr timeStr = None
  <-> truthy dateStr = false.
Proof.
  unfold parseLocalDate.
  destruct (truthy dateStr); cbn [negb]; [| tauto].
  split; [| discriminate].
  match goal with
  | |- context [match ?d with [] => _ | _ :: _ => _ end] => destruct d as [| ? [| ? [| ? [| ? ?]]]]
  end; try discriminate.
  destruct (gt _ _); discriminate.
Qed.

(** C3 fails on the source: a row whose date cell is not a date is kept,
    with an invalid date, when its three numbers parse. *)
Theorem unparseable_date_row_kept :
  handleFile tzOffset dateParse
    [[("DATE", "ab/cd/ef"); ("LAT", "18.5"); ("LONG", "99,1"); ("M", "3.2")]]%string
  = [mkParsedRow InvalidDate (Fin (37 # 2)) (Fin (991 # 10)) (Fin (16 # 5)) "-"]
  /\ handleFile tzOffset dateParse
       [[("DATE", "2023-12-31"); ("TIME", "noon"); ("LAT", "18.5");
         ("LONG", "99,1"); ("M", "3.2")]]%string
     = [mkParsedRow InvalidDate (Fin (37 # 2)) (Fin (991 # 10)) (Fin (16 # 5)) "-"].
Proof. split; vm_compute; reflexivity. Qed.

End DateFacts.

Lemma parseLocalDate_same_day_witness :
  Js.getFullYear 25200000 (Js.ValidDate (19722 * Js.msPerDay - 25200000)) = Some 2023%Z.
Proof.
  apply (@parseLocalDate_same_day 25200000 (fun _ => Js.InvalidDate)).
  vm_compute. discriminate.
Defined.

(* ================================================================== *)
(** * Properties of the normaliser *)
(* ================================================================== *)

Section NormalizerFacts.

Local Open Scope R_scope.

Lemma Rabs_le_bounds (a b : R) : Rabs a <= b -> - b <= a <= b.
Proof.
  unfold Rabs. destruct (Rcase_abs a); intros H; lra.
Qed.




Lemma sumR_nonneg (xs : list R) : Forall (fun x => 0 <= x) xs -> 0 <= sumR xs.
Proof.
  induction 1 as [| x xs Hx Hxs IH]; cbn; [lra |]. fold (sumR xs). lra.
Qed.

Lemma length_pos_INR (A : Type) (l : list A) : l <> [] -> 0 < INR (List.length l).
Proof.
  intros H. destruct l; [contradiction |]. apply lt_0_INR. cbn. lia.
Qed.

Lemma varR_nonneg (xs : list R) : xs <> [] -> 0 <= varR xs.
Proof.
  intros Hne. unfold varR, meanR; cbv zeta. rewrite length_map.
  apply Rmult_le_pos.
  - apply sumR_nonneg, Forall_map, Forall_forall. intros x _. apply pow2_ge_0.
  - left. apply Rinv_0_lt_compat, length_pos_INR; exact Hne.
Qed.




End NormalizerFacts.

Section NormalizerColumns.

Local Open Scope R_scope.








End NormalizerColumns.

(* ================================================================== *)
(** * A fit matrix with a constant column *)
(* ================================================================== *)

Section ConstantLatitude.

Local Open Scope R_scope.

Lemma in_firstn (A : Type) (n : nat) (l : list A) (x : A) :
  In x (firstn n l) -> In x l.
Proof.
  intros H. rewrite <- (firstn_skipn n l). apply in_or_app. left. exact H.
Qed.



Lemma Q2R_zero : Q2R 0 = 0.
Proof. unfold Q2R; cbn [Qnum Qden]. lra. Qed.





End ConstantLatitude.

(* ================================================================== *)
(** * The normaliser in a run *)
(* ================================================================== *)

Section NormalizerRun.

Local Open Scope R_scope.




End NormalizerRun.

(* ================================================================== *)
(** * The grid as a partition of the events *)
(* ================================================================== *)

Section GridPartition.

Variable coords : row -> cellKey.
Variable dLat : R.

Lemma gridPush_keys (g : grid) (k : cellKey) (r : row) :
  map fst (gridPush g k r) = map fst g.
Proof.
  induction g as [| [k' c] g IH]; cbn [gridPush map]; [reflexivity |].
  destruct (key_eqb k k'); cbn [map fst]; [reflexivity | rewrite IH; reflexivity].
Qed.

Lemma gridHas_In (g : grid) (k : cellKey) :
  gridHas g k = true <-> In k (map fst g).
Proof.
  unfold gridHas. rewrite existsb_exists, in_map_iff. split.
  - intros [e [He Hk]]. exists e. apply key_eqb_eq in Hk. split; [symmetry |]; assumption.
  - intros [e [Hk He]]. exists e. split; [exact He |]. rewrite Hk. apply key_eqb_refl.
Qed.

Lemma key_eqb_neq (a b : cellKey) : a <> b -> key_eqb a b = false.
Proof.
  intros H. destruct (key_eqb a b) eqn:E; [| reflexivity].
  apply key_eqb_eq in E. contradiction.
Qed.

Lemma filter_none (A : Type) (f : A -> bool) (l : list A) :
  (forall x, In x l -> f x = false) -> filter f l = [].
Proof.
  induction l as [| x l IH]; intros H; cbn [filter]; [reflexivity |].
  rewrite (H x) by (left; reflexivity). apply IH.
  intros y Hy. apply H. right. exact Hy.
Qed.

Lemma cellOf_other (done : list row) (r : row) (e : cellKey * cell) :
  cellOf coords dLat done e -> coords r <> fst e ->
  cellOf coords dLat (done ++ [r]) e.
Proof.
  intros [H1 [H2 [H3 H4]]] Hne. repeat split; try assumption.
  rewrite filter_app. simpl filter. rewrite (key_eqb_neq Hne), app_nil_r. exact H4.
Qed.

Lemma gridPush_cellOf (done : list row) (r : row) (g : grid) :
  NoDup (map fst g) ->
  Forall (cellOf coords dLat done) g ->
  Forall (cellOf coords dLat (done ++ [r])) (gridPush g (coords r) r).
Proof.
  induction g as [| [k' c] g IH]; intros Hnd Hall; cbn [gridPush]; [constructor |].
  inversion Hnd as [| ? ? Hnotin Hnd']; subst.
  inversion Hall as [| ? ? Hc Hg]; subst.
  destruct (key_eqb (coords r) k') eqn:E.
  - apply key_eqb_eq in E. constructor.
    + destruct Hc as [H1 [H2 [H3 H4]]]. cbn [fst snd] in *.
      repeat split; cbn [fst snd gx gy degLat rows]; try assumption.
      rewrite filter_app, H4. simpl filter. rewrite E, key_eqb_refl. reflexivity.
    + apply Forall_forall. intros e He.
      rewrite Forall_forall in Hg. apply cellOf_other; [apply Hg; exact He |].
      intros Heq. apply Hnotin. rewrite <- E, Heq. apply in_map. exact He.
  - constructor.
    + apply cellOf_other; [exact Hc |]. cbn [fst].
      intros Heq. rewrite Heq, key_eqb_refl in E. discriminate E.
    + apply IH; assumption.
Qed.

(** The invariant of the loop of [groupByGrid] after the rows [done]. *)
Lemma fold_groupStep_cells (rs done : list row) (g : grid) :
  NoDup (map fst g) ->
  Forall (cellOf coords dLat done) g ->
  (forall r, In r done -> In (coords r) (map fst g)) ->
  let g' := fold_left (groupStep coords dLat) rs g in
  NoDup (map fst g')
  /\ Forall (cellOf coords dLat (done ++ rs)) g'
  /\ (forall r, In r (done ++ rs) -> In (coords r) (map fst g')).
Proof.
  revert done g. induction rs as [| r rs IH]; intros done g Hnd Hall Hin; cbn [fold_left].
  - rewrite app_nil_r. auto.
  - replace (done ++ r :: rs) with ((done ++ [r]) ++ rs)
      by (rewrite <- app_assoc; reflexivity).
    apply IH; unfold groupStep; cbv zeta.
    + rewrite gridPush_keys.
      destruct (gridHas g (coords r)) eqn:E; [exact Hnd |].
      rewrite map_app. cbn [map fst]. apply NoDup_app. repeat split.
      * exact Hnd.
      * constructor; [intros [] | constructor].
      * intros k Hk [<- | []]. apply gridHas_In in Hk. congruence.
    + destruct (gridHas g (coords r)) eqn:E.
      * apply gridPush_cellOf; assumption.
      * apply gridPush_cellOf.
        -- rewrite map_app. cbn [map fst]. apply NoDup_app. repeat split.
           ++ exact Hnd.
           ++ constructor; [intros [] | constructor].
           ++ intros k Hk [<- | []]. apply gridHas_In in Hk. congruence.
        -- apply Forall_app. split; [exact Hall |].
           constructor; [| constructor].
           repeat split. cbn [fst snd rows].
           symmetry. apply filter_none. intros r' Hr'.
           apply key_eqb_neq. intros Heq.
           specialize (Hin r' Hr'). apply gridHas_In in Hin. congruence.
    + intros r' Hr'. rewrite gridPush_keys.
      apply in_app_or in Hr'. destruct Hr' as [Hr' | [<- | []]].
      * destruct (gridHas g (coords r)); [apply Hin; exact Hr' |].
        rewrite map_app. apply in_or_app. left. apply Hin; exact Hr'.
      * destruct (gridHas g (coords r)) eqn:E; [apply gridHas_In; exact E |].
        rewrite map_app. apply in_or_app. right. left. reflexivity.
Qed.

Lemma gridPush_rows (g : grid) (k : cellKey) (r : row) :
  gridHas g k = true ->
  Permutation (flat_map (fun e => rows (snd e)) (gridPush g k r))
              (r :: flat_map (fun e => rows (snd e)) g).
Proof.
  induction g as [| [k' c] g IH]; [discriminate |].
  cbn [gridHas existsb fst gridPush].
  destruct (key_eqb k k'); cbn [orb flat_map snd rows].
  - intros _. rewrite <- app_assoc. cbn [app].
    symmetry. apply Permutation_middle.
  - intros H. unfold gridHas in IH. rewrite (IH H).
    symmetry. apply Permutation_middle.
Qed.

Lemma fold_groupStep_rows (rs : list row) (g : grid) :
  Permutation (flat_map (fun e => rows (snd e)) (fold_left (groupStep coords dLat) rs g))
              (flat_map (fun e => rows (snd e)) g ++ rs).
Proof.
  revert g. induction rs as [| r rs IH]; intros g; cbn [fold_left].
  - rewrite app_nil_r. reflexivity.
  - rewrite IH. unfold groupStep; cbv zeta.
    destruct (gridHas g (coords r)) eqn:E.
    + rewrite gridPush_rows by exact E.
      cbn [app]. apply Permutation_middle.
    + rewrite gridPush_fresh by exact E.
      rewrite flat_map_app. cbn [flat_map snd rows app].
      rewrite <- app_assoc. reflexivity.
Qed.

End GridPartition.

Section GridTheorems.

Local Open Scope R_scope.

Lemma groupByGrid_invariant (rs : list row) (cellKm : Q) :
  NoDup (map fst (groupByGrid rs cellKm))
  /\ Forall (cellOf (gridCoords (Q2R cellKm / 111)) (Q2R cellKm / 111) rs)
            (groupByGrid rs cellKm)
  /\ (forall r, In r rs ->
        In (gridCoords (Q2R cellKm / 111) r) (map fst (groupByGrid rs cellKm))).
Proof.
  unfold groupByGrid, groupWith; cbv zeta.
  apply (@fold_groupStep_cells (gridCoords (Q2R cellKm / 111)) (Q2R cellKm / 111) rs [] []).
  - constructor.
  - constructor.
  - intros r [].
Qed.

Lemma grid_cell_rows (rs : list row) (cellKm : Q) :
  Forall (fun e =>
            gx (snd e) = fst (fst e)
            /\ gy (snd e) = snd (fst e)
            /\ degLat (snd e) = Q2R cellKm / 111
            /\ rows (snd e)
               = filter (fun r => key_eqb (gridCoords (Q2R cellKm / 111) r) (fst e)) rs)
         (groupByGrid rs cellKm).
Proof.
  exact (proj1 (proj2 (groupByGrid_invariant rs cellKm))).
Qed.

(** X1: every cell of [groupByGrid] carries the coordinates of its key and
    the cell size, and holds exactly the input events with those
    coordinates, in the order of the input. *)
Theorem groupByGrid_cells (rs : list row) (cellKm : Q) :
  Forall (fun e =>
            gx (snd e) = fst (fst e)
            /\ gy (snd e) = snd (fst e)
            /\ degLat (snd e) = Q2R cellKm / 111
            /\ rows (snd e)
               = filter (fun r => key_eqb (gridCoords (Q2R cellKm / 111) r) (fst e)) rs)
         (groupByGrid rs cellKm).
Proof.
  apply grid_cell_rows.
Qed.

(** X2: the keys of the grid are pairwise distinct, and every input event
    lies in the cell of its own coordinates and in no other cell. *)
Theorem groupByGrid_one_cell_per_event (rs : list row) (cellKm : Q) :
  NoDup (map fst (groupByGrid rs cellKm))
  /\ forall r, In r rs ->
       (exists c, In (gridCoords (Q2R cellKm / 111) r, c) (groupByGrid rs cellKm)
                  /\ In r (rows c))
       /\ (forall k c, In (k, c) (groupByGrid rs cellKm) -> In r (rows c) ->
                       k = gridCoords (Q2R cellKm / 111) r).
Proof.
  destruct (groupByGrid_invariant rs cellKm) as [Hnd [Hcells Hkeys]].
  split; [exact Hnd |].
  rewrite Forall_forall in Hcells.
  intros r Hr. split.
  - specialize (Hkeys r Hr). apply in_map_iff in Hkeys.
    destruct Hkeys as [[k c] [Hk He]]. cbn [fst] in Hk. subst k.
    exists c. split; [exact He |].
    destruct (Hcells _ He) as [_ [_ [_ Hrows]]]. cbn [fst snd] in Hrows.
    rewrite Hrows. apply filter_In. split; [exact Hr | apply key_eqb_refl].
  - intros k c He Hin.
    destruct (Hcells _ He) as [_ [_ [_ Hrows]]]. cbn [fst snd] in Hrows.
    rewrite Hrows in Hin. apply filter_In in Hin. destruct Hin as [_ Hk].
    apply key_eqb_eq in Hk. symmetry. exact Hk.
Qed.

(** X3: the rows of the cells, taken together, are the input events: none
    is lost and none is duplicated. *)
Theorem groupByGrid_rows_permutation (rs : list row) (cellKm : Q) :
  Permutation (flat_map (fun e => rows (snd e)) (groupByGrid rs cellKm)) rs.
Proof.
  unfold groupByGrid, groupWith; cbv zeta.
  rewrite fold_groupStep_rows. reflexivity.
Qed.

Lemma floor_bounds (x : R) : IZR (floor x) <= x < IZR (floor x) + 1.
Proof.
  unfold floor. destruct (base_Int_part x) as [H1 H2]. lra.
Qed.

Lemma Q2R_pos (q : Q) : (0 < q)%Q -> 0 < Q2R q.
Proof.
  intros H. apply Qlt_Rlt in H. unfold Q2R at 1 in H. cbn [Qnum Qden] in H. lra.
Qed.

(** X4: for a positive cell size, every event lies in the latitude band
    of its cell, [gy * degLat <= lat < (gy + 1) * degLat]; an event at a
    latitude whose cosine is positive lies moreover in the longitude
    band of width [w = degLat * cos(lat)],
    [gx * w <= lon < (gx + 1) * w]. *)
Theorem gridCoords_bands (cellKm : Q) (r : row) :
  (0 < cellKm)%Q ->
  let d := Q2R cellKm / 111 in
  let w := d * cos (toRad (Q2R (lat r))) in
  IZR (snd (gridCoords d r)) * d <= Q2R (lat r) < (IZR (snd (gridCoords d r)) + 1) * d
  /\ (0 < cos (toRad (Q2R (lat r))) ->
      IZR (fst (gridCoords d r)) * w <= Q2R (lon r) < (IZR (fst (gridCoords d r)) + 1) * w).
Proof.
  intros Hc d w.
  assert (Hd : 0 < d) by (unfold d; pose proof (Q2R_pos Hc); lra).
  unfold gridCoords; cbn [fst snd]. fold (toRad (Q2R (lat r))). fold w.
  split.
  - pose proof (floor_bounds (Q2R (lat r) / d)) as [Hy1 Hy2].
    assert (Ey : Q2R (lat r) = Q2R (lat r) / d * d) by (field; lra).
    generalize dependent (floor (Q2R (lat r) / d)).
    generalize dependent (Q2R (lat r) / d).
    intros qy Ey iy Hy1 Hy2.
    rewrite Ey. split.
    + apply Rmult_le_compat_r; lra.
    + apply Rmult_lt_compat_r; lra.
  - intros Hcos.
    assert (Hw : 0 < w) by (unfold w; apply Rmult_lt_0_compat; assumption).
    rewrite (orOne_nonzero (Rgt_not_eq _ _ Hw)).
    pose proof (floor_bounds (Q2R (lon r) / w)) as [Hx1 Hx2].
    assert (Ex : Q2R (lon r) = Q2R (lon r) / w * w) by (field; lra).
    generalize dependent (floor (Q2R (lon r) / w)).
    generalize dependent (Q2R (lon r) / w).
    intros qx Ex ix Hx1 Hx2.
    rewrite Ex. split.
    + apply Rmult_le_compat_r; lra.
    + apply Rmult_lt_compat_r; lra.
Qed.

(** The latitude band of an event at the pole, where the cosine is not
    positive, and the longitude band of an event on the equator. *)
Lemma gridCoords_bands_witness :
  (IZR (snd (gridCoords (Q2R 50 / 111) (mkRow 0 90 100 3 "-"))) * (Q2R 50 / 111)
   <= Q2R 90
   < (IZR (snd (gridCoords (Q2R 50 / 111) (mkRow 0 90 100 3 "-"))) + 1) * (Q2R 50 / 111))
  /\ IZR (fst (gridCoords (Q2R 50 / 111) (mkRow 0 0 100 3 "-")))
       * (Q2R 50 / 111 * cos (toRad (Q2R 0)))
     <= Q2R 100.
Proof.
  split.
  - apply (@gridCoords_bands 50 (mkRow 0 90 100 3 "-")). reflexivity.
  - apply (@gridCoords_bands 50 (mkRow 0 0 100 3 "-")).
    + reflexivity.
    + cbn [lat]. unfold toRad, Q2R; cbn [Qnum Qden].
      replace (0 * / 1 * PI / 180) with 0 by field. rewrite cos_0. lra.
Defined.

End GridTheorems.

(* ================================================================== *)
(** * More on the distance *)
(* ================================================================== *)

Section DistanceMore.

Local Open Scope R_scope.

(** X5: the distance never exceeds half the circumference of the sphere,
    [6371 * PI] kilometres. *)
Theorem haversineKm_at_most_half_circumference (aLat aLon bLat bLon : R) :
  haversineKm aLat aLon bLat bLon <= 6371 * PI.
Proof.
  unfold haversineKm; cbv zeta.
  pose proof (asin_bound (sqrt (haversineA aLat aLon bLat bLon))) as [_ H].
  lra.
Qed.


Lemma asin_abs_sin (h : R) :
  - (PI / 2) <= h <= PI / 2 -> asin (Rabs (sin h)) = Rabs h.
Proof.
  intros [H1 H2]. pose proof PI_RGT_0 as Hpi.
  destruct (Rle_dec 0 h) as [Hh | Hh].
  - rewrite (Rabs_right h) by lra.
    rewrite Rabs_right by (apply Rle_ge, sin_ge_0; lra).
    apply asin_sin. lra.
  - assert (Hneg : h < 0) by lra.
    rewrite (Rabs_left h) by exact Hneg.
    assert (Hs : 0 <= sin (- h)) by (apply sin_ge_0; lra).
    rewrite sin_neg in Hs.
    destruct (Req_dec (sin h) 0) as [Hz | Hz].
    + rewrite Hz, Rabs_R0. rewrite <- (sin_neg h) in Hs.
      assert (E : sin (- h) = 0) by (rewrite sin_neg, Hz; ring).
      rewrite <- E. apply asin_sin. lra.
    + rewrite Rabs_left by lra. rewrite <- sin_neg. apply asin_sin. lra.
Qed.

(** X7: between two points of one meridian that are at most 180 degrees
    of latitude apart, the distance is the arc [6371 * PI / 180] kilometres
    per degree of latitude. *)
Theorem haversineKm_along_meridian (aLat bLat lon0 : R) :
  Rabs (bLat - aLat) <= 180 ->
  haversineKm aLat lon0 bLat lon0 = 6371 * PI / 180 * Rabs (bLat - aLat).
Proof.
  intros Hd. pose proof PI_RGT_0 as Hpi.
  unfold haversineKm, haversineA; cbv zeta.
  replace (toRad (lon0 - lon0)) with 0 by (unfold toRad; field).
  replace (0 / 2) with 0 by field. rewrite sin_0.
  replace (sin (toRad (bLat - aLat) / 2) ^ 2 + cos (toRad aLat) * cos (toRad bLat) * 0 ^ 2)
    with (Rsqr (sin (toRad (bLat - aLat) / 2))) by (unfold Rsqr; ring).
  rewrite sqrt_Rsqr_abs.
  apply Rabs_le_bounds in Hd.
  rewrite asin_abs_sin by (unfold toRad; split; nra).
  replace (toRad (bLat - aLat) / 2) with ((bLat - aLat) * (PI / 360))
    by (unfold toRad; field).
  rewrite Rabs_mult, (Rabs_right (PI / 360)) by lra.
  field.
Qed.

Lemma haversineKm_along_meridian_witness :
  haversineKm 0 100 1 100 = 6371 * PI / 180 * Rabs (1 - 0).
Proof.
  apply haversineKm_along_meridian.
  replace (1 - 0) with 1 by ring. rewrite Rabs_R1. lra.
Defined.

End DistanceMore.

(* ================================================================== *)
(** * More on the ingestion *)
(* ================================================================== *)

Section SortOn.

Variable A : Type.
Variable above : A -> A -> bool.
Variable le : A -> A -> Prop.
Variable P : A -> Prop.
Hypothesis le_trans : forall a b c, le a b -> le b c -> le a c.
Hypothesis above_false : forall a b, P a -> P b -> above a b = false -> le a b.
Hypothesis above_true : forall a b, P a -> P b -> above a b = true -> le b a.

Lemma insertSorted_sorted_on (x : A) (l : list A) :
  P x -> Forall P l -> StronglySorted le l ->
  StronglySorted le (insertSorted above x l).
Proof.
  intros Hx. induction l as [| y l IH]; cbn; intros HP Hs.
  - constructor; constructor.
  - inversion Hs as [| ? ? Hl Hy]; subst.
    inversion HP as [| ? ? Py Pl]; subst.
    destruct (above x y) eqn:E.
    + constructor; [apply IH; assumption |].
      apply Forall_forall. intros z Hz.
      apply (Permutation_in _ (insertSorted_perm above x l)) in Hz.
      destruct Hz as [<- | Hz].
      * apply above_true; assumption.
      * rewrite Forall_forall in Hy. apply Hy; exact Hz.
    + constructor; [exact Hs |].
      constructor; [apply above_false; assumption |].
      eapply Forall_impl; [| exact Hy].
      intros z Hz. eapply le_trans; [apply above_false; eassumption | exact Hz].
Qed.

Lemma sortBy_sorted_on (l : list A) :
  Forall P l -> StronglySorted le (sortBy above l).
Proof.
  induction l as [| x l IH]; cbn; intros HP.
  - constructor.
  - inversion HP; subst. apply insertSorted_sorted_on; [assumption | | apply IH; assumption].
    apply Forall_forall. intros z Hz.
    apply (Permutation_in _ (sortBy_perm above l)) in Hz.
    rewrite Forall_forall in H2. apply H2; exact Hz.
Qed.

End SortOn.

Section IngestionFacts.

Import Js.

Variable tzOffset : Z.
Variable dateParse : string -> Date.

Lemma keepParsed_In (data : list rawRow) (p : parsedRow) :
  In p (keepParsed tzOffset dateParse data)
  <-> exists r, In r data /\ parseRow tzOffset dateParse r = Some p.
Proof.
  induction data as [| r data IH]; cbn [keepParsed].
  - split; [intros [] | intros [r [[] _]]].
  - destruct (parseRow tzOffset dateParse r) as [q |] eqn:E.
    + cbn [In]. rewrite IH. split.
      * intros [Hq | [r' [Hr' Hp]]].
        -- exists r. split; [left; reflexivity | congruence].
        -- exists r'. split; [right; exact Hr' | exact Hp].
      * intros [r' [[Hr' | Hr'] Hp]].
        -- left. congruence.
        -- right. exists r'. split; assumption.
    + rewrite IH. split.
      * intros [r' [Hr' Hp]]. exists r'. split; [right; exact Hr' | exact Hp].
      * intros [r' [[Hr' | Hr'] Hp]].
        -- congruence.
        -- exists r'. split; assumption.
Qed.

Lemma keepParsed_length (data : list rawRow) :
  (List.length (keepParsed tzOffset dateParse data) <= List.length data)%nat.
Proof.
  induction data as [| r data IH]; cbn [keepParsed List.length]; [lia |].
  destruct (parseRow tzOffset dateParse r); cbn [List.length]; lia.
Qed.

Lemma parseRow_dropped (r : rawRow) :
  parseRow tzOffset dateParse r = None
  <-> truthy (field r "DATE") = false
      \/ cellNumber (orElse (field r "LAT") (field r "Latitude")) = NaN
      \/ cellNumber (orElse (orElse (field r "LONG") (field r "LON"))
                            (field r "Longitude")) = NaN
      \/ cellNumber (orElse (orElse (field r "M/I") (field r "MAG")) (field r "M")) = NaN.
Proof.
  unfold parseRow, cellNumber; cbv zeta.
  destruct (parseLocalDate tzOffset dateParse (field r "DATE") (field r "TIME"))
    as [d |] eqn:Ed.
  - assert (Ht : truthy (field r "DATE") = true).
    { destruct (truthy (field r "DATE")) eqn:Et; [reflexivity |].
      apply parseLocalDate_null with (tzOffset := tzOffset) (dateParse := dateParse)
                                     (timeStr := field r "TIME") in Et.
      congruence. }
    rewrite Ht.
    set (la := parseFloat _). set (lo := parseFloat _). set (ma := parseFloat _).
    destruct la, lo, ma; cbn [isNaN orb]; split;
      try discriminate; try (intros _; auto; fail);
      try (intros [H | [H | [H | H]]]; discriminate H).
  - apply parseLocalDate_null in Ed. split; [intros _; left; exact Ed | reflexivity].
Qed.


(** X8: a row of the file is dropped exactly when its DATE cell is missing
    or empty, or when its latitude, longitude or magnitude cell (under any
    of the accepted column names, with a decimal comma allowed) does not
    start with a number. *)
Theorem parseRow_dropped_iff (r : rawRow) :
  parseRow tzOffset dateParse r = None
  <-> truthy (field r "DATE") = false
      \/ cellNumber (orElse (field r "LAT") (field r "Latitude")) = NaN
      \/ cellNumber (orElse (orElse (field r "LONG") (field r "LON"))
                            (field r "Longitude")) = NaN
      \/ cellNumber (orElse (orElse (field r "M/I") (field r "MAG")) (field r "M")) = NaN.
Proof.
  apply parseRow_dropped.
Qed.

(** X9: a row that has no latitude cell under either accepted name, or
    only empty ones, is dropped, whatever its other cells hold. *)
Theorem parseRow_needs_latitude (r : rawRow) :
  truthy (field r "LAT") = false ->
  truthy (field r "Latitude") = false ->
  parseRow tzOffset dateParse r = None.
Proof.
  intros H1 H2. apply parseRow_dropped. right. left.
  unfold cellNumber, orElse. rewrite H1, H2. cbn [truthy text]. reflexivity.
Qed.

(** X10: the rows given to [setLocalData] are the kept rows in another
    order, so none is lost or duplicated by the sort; they are at most as
    many as the rows of the file, and none has a [NaN] latitude, longitude
    or magnitude. *)
Theorem handleFile_kept_rows (data : list rawRow) :
  Permutation (handleFile tzOffset dateParse data) (keepParsed tzOffset dateParse data)
  /\ (List.length (handleFile tzOffset dateParse data) <= List.length data)%nat
  /\ Forall (fun p => isNaN (plat p) = false /\ isNaN (plon p) = false
                      /\ isNaN (pmag p) = false)
            (handleFile tzOffset dateParse data).
Proof.
  assert (Hperm : Permutation (handleFile tzOffset dateParse data)
                              (keepParsed tzOffset dateParse data))
    by apply sortBy_perm.
  split; [exact Hperm |]. split.
  - rewrite (Permutation_length Hperm). apply keepParsed_length.
  - apply Forall_forall. intros p Hp.
    apply (Permutation_in _ Hperm) in Hp. apply keepParsed_In in Hp.
    destruct Hp as [r [_ Hr]]. unfold parseRow in Hr; cbv zeta in Hr.
    destruct (parseLocalDate _ _ _ _); [| discriminate].
    match type of Hr with
    | (if ?a || ?b || ?c then _ else _) = _ =>
        destruct a eqn:Ea; destruct b eqn:Eb; destruct c eqn:Ec;
        cbn [orb] in Hr; try discriminate
    end.
    inversion Hr; subst. cbn [plat plon pmag]. auto.
Qed.

(** X11: when every kept row has a valid date, the rows given to
    [setLocalData] are in the order of their times, earliest first. *)
Theorem handleFile_sorted (data : list rawRow) :
  Forall (fun p => pdate p <> InvalidDate) (keepParsed tzOffset dateParse data) ->
  StronglySorted byPTime (handleFile tzOffset dateParse data).
Proof.
  intros Hvalid. unfold handleFile.
  apply (@sortBy_sorted_on _ pdateAbove byPTime (fun p => pdate p <> InvalidDate));
    try exact Hvalid; unfold byPTime, pdateAbove, ptime, getTime.
  - intros a b c. lia.
  - intros a b Ha Hb. destruct (pdate a), (pdate b); try contradiction.
    intros H. apply Z.ltb_ge in H. exact H.
  - intros a b Ha Hb. destruct (pdate a), (pdate b); try contradiction.
    intros H. apply Z.ltb_lt in H. lia.
Qed.

End IngestionFacts.

Lemma parseRow_needs_latitude_witness :
  parseRow 25200000 (fun _ => Js.InvalidDate)
           [("DATE", "31/12/2023"); ("LONG", "99.1"); ("M", "3.2")]%string = None.
Proof.
  apply parseRow_needs_latitude; reflexivity.
Defined.

Lemma handleFile_sorted_witness :
  StronglySorted byPTime
    (handleFile 25200000 (fun _ => Js.InvalidDate)
       [[("DATE", "31/12/2023"); ("LAT", "18.5"); ("LONG", "99.1"); ("M", "3.2")];
        [("DATE", "2023-01-15"); ("LAT", "18.6"); ("LONG", "99.2"); ("M", "4.1")]]%string).
Proof.
  apply handleFile_sorted. vm_compute. repeat constructor; discriminate.
Defined.

(* ================================================================== *)
(** * More on the date normaliser *)
(* ================================================================== *)

Section DateMore.

Import Js.
Local Open Scope string_scope.

Variable tzOffset : Z.
Variable dateParse : string -> Date.

Lemma split_no_separator (c : ascii) (s : string) :
  includes c s = false -> split c s = [s].
Proof.
  induction s as [| x s IH]; cbn [includes split]; [reflexivity |].
  intros H. apply orb_false_iff in H. destruct H as [H1 H2].
  rewrite H1, (IH H2). reflexivity.
Qed.

(** X12: a date text that holds neither [/] nor [-] is not taken apart:
    the date, a space and the time (with its dots turned into colons) are
    handed to the generic parser of [Date], and its result, valid or not,
    is the result. *)
Theorem parseLocalDate_generic_fallback (ds : string) (timeStr : option string) :
  ds <> "" ->
  includes "/" (trim ds) = false ->
  includes "-" (trim ds) = false ->
  parseLocalDate tzOffset dateParse (Some ds) timeStr
  = Some (dateParse (trim ds ++ " "
                     ++ replaceAll "." ":"
                          (trim (text (orElse timeStr (Some "00:00:00")))))).
Proof.
  intros Hne H1 H2. unfold parseLocalDate; cbv zeta.
  destruct ds as [| c ds]; [contradiction |]. cbn [truthy negb].
  rewrite H1, (split_no_separator _ _ H2). reflexivity.
Qed.

Lemma newDate_without_seconds (year month day hh mm : number) :
  newDate tzOffset year month day hh mm NaN = InvalidDate.
Proof.
  unfold newDate.
  destruct year; try reflexivity. destruct month; try reflexivity.
  destruct day; try reflexivity. destruct hh; try reflexivity.
  destruct mm; reflexivity.
Qed.

(** X13: with a date of three tokens, a time text that has fewer than
    three parts between its colons (or dots), such as hours and minutes
    only, gives an invalid date: the missing part reaches the [Date]
    constructor as [undefined]. *)
Theorem parseLocalDate_needs_seconds (ds ts : string) :
  ds <> "" -> ts <> "" ->
  List.length (if includes "/" (trim ds) then split "/" (trim ds)
               else split "-" (trim ds)) = 3%nat ->
  (List.length (split ":" (replaceAll "." ":" (trim ts))) < 3)%nat ->
  parseLocalDate tzOffset dateParse (Some ds) (Some ts) = Some InvalidDate.
Proof.
  intros Hd Ht H3 Hparts. unfold parseLocalDate; cbv zeta.
  destruct ds as [| c ds]; [contradiction |].
  destruct ts as [| c' ts]; [contradiction |].
  cbn [truthy negb orElse].
  destruct (if includes "/" (trim (String c ds))
            then split "/" (trim (String c ds))
            else split "-" (trim (String c ds)))
    as [| d0 [| d1 [| d2 [| d3 rest]]]]; try discriminate H3.
  assert (Hel : forall f : string -> number,
             element (map f (split ":" (replaceAll "." ":" (trim (String c' ts))))) 2 = NaN).
  { intros f. unfold element. apply nth_overflow. rewrite length_map. lia. }
  rewrite Hel.
  destruct (gt (toNumber d0) (Fin 31)); rewrite newDate_without_seconds; reflexivity.
Qed.

Lemma trimStart_replaceAll (c d : ascii) (s : string) :
  isWhite c = false -> isWhite d = false ->
  trimStart (replaceAll c d s) = replaceAll c d (trimStart s).
Proof.
  intros Hc Hd. induction s as [| x s IH]; cbn [replaceAll trimStart]; [reflexivity |].
  destruct (Ascii.eqb x c) eqn:E.
  - apply Ascii.eqb_eq in E. subst x. rewrite Hc, Hd.
    cbn [replaceAll]. rewrite Ascii.eqb_refl. reflexivity.
  - destruct (isWhite x); [exact IH |]. cbn [replaceAll]. rewrite E. reflexivity.
Qed.

Lemma trimEnd_replaceAll (c d : ascii) (s : string) :
  isWhite c = false -> isWhite d = false ->
  trimEnd (replaceAll c d s) = replaceAll c d (trimEnd s).
Proof.
  intros Hc Hd. induction s as [| x s IH]; cbn [replaceAll trimEnd]; [reflexivity |].
  rewrite IH.
  assert (Hw : isWhite (if Ascii.eqb x c then d else x) = isWhite x).
  { destruct (Ascii.eqb x c) eqn:E; [| reflexivity].
    apply Ascii.eqb_eq in E. subst x. rewrite Hc, Hd. reflexivity. }
  destruct (trimEnd s) as [| y t]; cbn [replaceAll].
  - rewrite Hw. destruct (isWhite x); reflexivity.
  - reflexivity.
Qed.

Lemma replaceAll_twice (c d : ascii) (s : string) :
  Ascii.eqb d c = false ->
  replaceAll c d (replaceAll c d s) = replaceAll c d s.
Proof.
  intros Hdc. induction s as [| x s IH]; cbn [replaceAll]; [reflexivity |].
  rewrite IH. destruct (Ascii.eqb x c) eqn:E; [rewrite Hdc | rewrite E]; reflexivity.
Qed.

Lemma time_text_dots (ts : string) :
  replaceAll "." ":"
    (trim (match orElse (Some (replaceAll "." ":" ts)) (Some "00:00:00") with
           | Some s => s
           | None => ""
           end))
  = replaceAll "." ":"
      (trim (match orElse (Some ts) (Some "00:00:00") with
             | Some s => s
             | None => ""
             end)).
Proof.
  destruct ts as [| x ts]; [reflexivity |].
  cbn [replaceAll orElse truthy].
  change (String (if Ascii.eqb x "." then ":"%char else x) (replaceAll "." ":" ts))
    with (replaceAll "." ":" (String x ts)).
  unfold trim.
  rewrite trimStart_replaceAll, trimEnd_replaceAll by reflexivity.
  apply replaceAll_twice. reflexivity.
Qed.

(** X14: dots and colons are interchangeable as separators of the time
    text: turning the dots of the time into colons beforehand does not
    change the result. *)
Theorem parseLocalDate_time_dots (dateStr : option string) (ts : string) :
  parseLocalDate tzOffset dateParse dateStr (Some (replaceAll "." ":" ts))
  = parseLocalDate tzOffset dateParse dateStr (Some ts).
Proof.
  unfold parseLocalDate; cbv zeta. rewrite time_text_dots. reflexivity.
Qed.

End DateMore.

Lemma parseLocalDate_generic_fallback_witness :
  parseLocalDate 25200000 (fun _ => Js.InvalidDate) (Some "20231231"%string) None
  = Some Js.InvalidDate.
Proof.
  apply (@parseLocalDate_generic_fallback 25200000 (fun _ => Js.InvalidDate)
           "20231231"%string None); [discriminate | reflexivity | reflexivity].
Defined.

Lemma parseLocalDate_needs_seconds_witness :
  parseLocalDate 25200000 (fun _ => Js.InvalidDate)
                 (Some "31/12/2023"%string) (Some "12:30"%string)
  = Some Js.InvalidDate.
Proof.
  apply parseLocalDate_needs_seconds;
    [discriminate | discriminate | reflexivity | vm_compute; lia].
Defined.

(* ================================================================== *)
(** * More on the training set *)
(* ================================================================== *)

Section DatasetMore.

Local Open Scope Q_scope.

Variable s : appState.

Lemma allExamples_slots (rs : list row) :
  allExamples s rs
  = map (fun cr => example s (fst cr) (sortBy dateAbove (rows (fst cr))) (snd cr))
        (slots (groupByGrid rs (cellKm s))).
Proof.
  unfold allExamples, slots.
  induction (groupByGrid rs (cellKm s)) as [| e g IH]; cbn [flat_map map]; [reflexivity |].
  rewrite map_app, IH. f_equal.
  unfold cellExamples; cbv zeta. rewrite map_map. reflexivity.
Qed.

Lemma slots_In (rs : list row) (c : cell) (cur : row) :
  In (c, cur) (slots (groupByGrid rs (cellKm s))) ->
  In cur (rows c) /\ In cur rs.
Proof.
  intros H. unfold slots in H. apply in_flat_map in H.
  destruct H as [e [He H]]. apply in_map_iff in H.
  destruct H as [cur' [Heq Hcur]]. inversion Heq; subst.
  apply in_firstn in Hcur.
  apply (Permutation_in _ (sortBy_perm dateAbove (rows (snd e)))) in Hcur.
  split; [exact Hcur |].
  pose proof (grid_cell_rows rs (cellKm s)) as Hcells.
  rewrite Forall_forall in Hcells.
  destruct (Hcells e He) as [_ [_ [_ Hrows]]].
  pose proof (eq_ind _ (fun l => In cur l) Hcur _ Hrows) as Hin. cbv beta in Hin.
  apply filter_In in Hin. tauto.
Qed.

Lemma inLookback_spec (lookStart : Q) (t : Z) (r : row) :
  inLookback lookStart t r = true
  <-> lookStart <= inject_Z (date r) /\ (date r < t)%Z.
Proof.
  unfold inLookback. rewrite andb_true_iff, Qle_bool_iff, Z.ltb_lt. tauto.
Qed.

Lemma last_In (A : Type) (l : list A) (d : A) : l <> [] -> In (last l d) l.
Proof.
  induction l as [| x l IH]; [contradiction |]. intros _.
  destruct l as [| y l]; [left; reflexivity |].
  right. apply IH. discriminate.
Qed.

Lemma StronglySorted_filter (A : Type) (R : A -> A -> Prop) (f : A -> bool) (l : list A) :
  StronglySorted R l -> StronglySorted R (filter f l).
Proof.
  induction 1 as [| x l Hs IH Hx]; cbn [filter]; [constructor |].
  destruct (f x); [| exact IH].
  constructor; [exact IH |].
  apply Forall_forall. intros y Hy. apply filter_In in Hy.
  rewrite Forall_forall in Hx. apply Hx. tauto.
Qed.

(** The three arrays of the training set are parallel: [X], [y] and
    [meta] have the same length; every feature vector has five entries and
    every label is 0 or 1. *)
Lemma buildDataset_shape (rs : list row) :
  List.length (X (buildDataset s rs)) = List.length (y (buildDataset s rs))
  /\ List.length (y (buildDataset s rs)) = List.length (meta (buildDataset s rs))
  /\ Forall (fun v => List.length v = 5%nat) (X (buildDataset s rs))
  /\ Forall (fun l => l = 0%Z \/ l = 1%Z) (y (buildDataset s rs)).
Proof.
  unfold buildDataset; cbn [X y meta]. rewrite !length_map.
  split; [reflexivity |]. split; [reflexivity |].
  rewrite allExamples_slots, !map_map. split; apply Forall_map, Forall_forall.
  - intros cr _. reflexivity.
  - intros cr _. cbn [example fst snd]. destruct (existsb _ _); auto.
Qed.

End DatasetMore.

Section DatasetFeatures.

Local Open Scope Q_scope.

Variable s : appState.

Lemma filter_and (A : Type) (f g : A -> bool) (l : list A) :
  filter f (filter g l) = filter (fun x => g x && f x) l.
Proof.
  induction l as [| x l IH]; cbn [filter]; [reflexivity |].
  destruct (g x); cbn [filter andb]; [destruct (f x) |]; rewrite IH; reflexivity.
Qed.

Lemma Permutation_filter (A : Type) (f : A -> bool) (l l' : list A) :
  Permutation l l' -> Permutation (filter f l) (filter f l').
Proof.
  induction 1 as [| x l l' H IH | x y l | l l' l'' H1 IH1 H2 IH2]; cbn [filter].
  - constructor.
  - destruct (f x); [constructor |]; exact IH.
  - destruct (f x), (f y); try reflexivity. apply perm_swap.
  - etransitivity; eassumption.
Qed.

Lemma slot_cell (rs : list row) (c : cell) (cur : row) :
  In (c, cur) (slots (groupByGrid rs (cellKm s))) ->
  In cur rs
  /\ rows c = filter (fun r => key_eqb (gridCoords (Q2R (cellKm s) / 111) r)
                                       (gridCoords (Q2R (cellKm s) / 111) cur)) rs.
Proof.
  intros H. destruct (slots_In s rs c cur H) as [Hc Hrs]. split; [exact Hrs |].
  unfold slots in H. apply in_flat_map in H.
  destruct H as [e [He H]]. apply in_map_iff in H.
  destruct H as [cur' [Heq _]]. inversion Heq; subst.
  pose proof (grid_cell_rows rs (cellKm s)) as Hcells.
  rewrite Forall_forall in Hcells.
  destruct (Hcells e He) as [_ [_ [_ Hrows]]].
  pose proof (eq_ind _ (fun l => In cur l) Hc _ Hrows) as Hin. cbv beta in Hin.
  apply filter_In in Hin. destruct Hin as [_ Hk]. apply key_eqb_eq in Hk.
  rewrite Hk. exact Hrows.
Qed.

(** The window of the loop of [buildDataset] holds the events of
    [priorOf], in time order. *)
Lemma past_is_priorOf (rs : list row) (c : cell) (cur : row) :
  In (c, cur) (slots (groupByGrid rs (cellKm s))) ->
  Permutation
    (filter (inLookback (inject_Z (date cur) - msOfDays (lookbackDays s)) (date cur))
            (sortBy dateAbove (rows c)))
    (priorOf s rs cur).
Proof.
  intros H. destruct (slot_cell rs c cur H) as [_ Hrows].
  rewrite (Permutation_filter _ (sortBy_perm dateAbove (rows c))).
  rewrite Hrows, filter_and. reflexivity.
Qed.

Lemma hours_range (t d : Z) (lb : Q) :
  inject_Z t - msOfDays lb <= inject_Z d -> (d < t)%Z ->
  0 < inject_Z (t - d) / 3600000 /\ inject_Z (t - d) / 3600000 <= 24 * lb.
Proof.
  unfold msOfDays. intros H1 H2.
  assert (E : inject_Z (t - d) == inject_Z t - inject_Z d).
  { unfold Z.sub. rewrite inject_Z_plus, inject_Z_opp. reflexivity. }
  assert (P : inject_Z d < inject_Z t) by (rewrite <- Zlt_Qlt; exact H2).
  rewrite E. split.
  - apply Qlt_shift_div_l; Lqa.lra.
  - apply Qle_shift_div_r; Lqa.lra.
Qed.

(** X16: with a lookback of zero days or less no event has a prior event:
    every feature vector is the place of an input event followed by the
    count 0, the mean 0 and the sentinel 999999. *)
Theorem buildDataset_without_lookback (rs : list row) :
  lookbackDays s <= 0 ->
  Forall (fun v => exists cur, In cur rs /\ v = [lat cur; lon cur; 0; 0; 999999])
         (X (buildDataset s rs)).
Proof.
  intros Hlb. unfold buildDataset; cbn [X]. rewrite allExamples_slots, map_map.
  apply Forall_map, Forall_forall. intros [c cur] Hslot. cbn [fst snd].
  destruct (slot_cell rs c cur Hslot) as [Hcur _].
  exists cur. split; [exact Hcur |].
  unfold example; cbv zeta; cbn [fst].
  rewrite filter_none; [reflexivity |].
  intros p _. destruct (inLookback _ _ p) eqn:E; [| reflexivity].
  apply inLookback_spec in E. destruct E as [E1 E2].
  rewrite Zlt_Qlt in E2. unfold msOfDays in E1. Lqa.lra.
Qed.

(** X17: with a horizon of zero days or less, or when no input event
    reaches the magnitude threshold, every label is 0. *)
Theorem buildDataset_no_positive_label (rs : list row) :
  horizonDays s <= 0 \/ (forall r, In r rs -> mag r < magThreshold s) ->
  Forall (fun l => l = 0%Z) (y (buildDataset s rs)).
Proof.
  intros Hcase. unfold buildDataset; cbn [y]. rewrite allExamples_slots, map_map.
  apply Forall_map, Forall_forall. intros [c cur] Hslot. cbn [fst snd].
  unfold example; cbv zeta; cbn [fst snd].
  destruct (existsb _ _) eqn:E; [| reflexivity]. exfalso.
  apply existsb_filter in E. destruct E as [fe [Hin [Hh Hm]]].
  apply inHorizon_spec in Hh. destruct Hh as [Hh1 Hh2].
  apply Qle_bool_iff in Hm.
  destruct Hcase as [Hz | Hquiet].
  - rewrite Zlt_Qlt in Hh1. unfold msOfDays in Hh2. Lqa.lra.
  - apply (Permutation_in _ (sortBy_perm dateAbove (rows c))) in Hin.
    destruct (slot_cell rs c cur Hslot) as [_ Hrows].
    pose proof (eq_ind _ (fun l => In fe l) Hin _ Hrows) as Hin'. cbv beta in Hin'.
    apply filter_In in Hin'. destruct Hin' as [Hfe _].
    specialize (Hquiet fe Hfe). Lqa.lra.
Qed.

Lemma Forall2_map_same (A B : Type) (R : B -> B -> Prop) (f g : A -> B) (l : list A) :
  (forall x, In x l -> R (f x) (g x)) -> Forall2 R (map f l) (map g l).
Proof.
  induction l as [| x l IH]; intros H; cbn [map]; constructor.
  - apply H. left. reflexivity.
  - apply IH. intros z Hz. apply H. right. exact Hz.
Qed.

(** X18: labels are monotone in the parameters: with the same cell size, a
    higher magnitude threshold or a shorter horizon can turn a label from 1
    to 0 but never from 0 to 1. *)
Theorem labels_monotone_in_parameters (s' : appState) (rs : list row) :
  cellKm s' = cellKm s ->
  magThreshold s <= magThreshold s' ->
  horizonDays s' <= horizonDays s ->
  Forall2 Z.le (y (buildDataset s' rs)) (y (buildDataset s rs)).
Proof.
  intros Hcell Hthr Hhor. unfold buildDataset; cbn [y].
  rewrite !allExamples_slots, !map_map, Hcell.
  apply Forall2_map_same. intros [c cur] _. cbn [fst snd].
  unfold example; cbv zeta; cbn [fst snd].
  destruct (existsb (fun fe => Qle_bool (magThreshold s') (mag fe)) _) eqn:E';
    destruct (existsb (fun fe => Qle_bool (magThreshold s) (mag fe)) _) eqn:E;
    try lia.
  exfalso. apply existsb_filter in E'. destruct E' as [fe [Hin [Hh Hm]]].
  assert (Hex : existsb (fun fe => Qle_bool (magThreshold s) (mag fe))
                  (filter (inHorizon (date cur)
                             (inject_Z (date cur) + msOfDays (horizonDays s)))
                          (sortBy dateAbove (rows c))) = true).
  { apply existsb_filter. exists fe. split; [exact Hin |].
    apply inHorizon_spec in Hh. destruct Hh as [Hh1 Hh2].
    apply Qle_bool_iff in Hm. split.
    - apply inHorizon_spec. split; [exact Hh1 |]. unfold msOfDays in *. Lqa.lra.
    - apply Qle_bool_iff. Lqa.lra. }
  congruence.
Qed.

End DatasetFeatures.

Lemma buildDataset_without_lookback_witness :
  Forall (fun v => exists cur, In cur (dailyRows 3)
                               /\ v = [lat cur; lon cur; 0; 0; 999999]%Q)
         (X (buildDataset (mkState [] [] None 50 0 7 4 StatusIdle []) (dailyRows 3))).
Proof.
  apply buildDataset_without_lookback. cbn [lookbackDays]. apply Qle_refl.
Defined.

Lemma buildDataset_no_positive_label_witness :
  Forall (fun l => l = 0%Z) (y (buildDataset (session 31) (dailyRows 31))).
Proof.
  apply buildDataset_no_positive_label. right.
  intros r Hr. unfold dailyRows in Hr. apply in_map_iff in Hr.
  destruct Hr as [i [<- _]]. reflexivity.
Defined.

Lemma labels_monotone_in_parameters_witness :
  Forall2 Z.le
    (y (buildDataset (mkState [] [] None 50 30 7 5 StatusIdle []) (dailyRows 3)))
    (y (buildDataset (mkState [] [] None 50 30 7 4 StatusIdle []) (dailyRows 3))).
Proof.
  apply labels_monotone_in_parameters; [reflexivity | discriminate | discriminate].
Defined.

(* ================================================================== *)
(** * More on [trainAndPredict] *)
(* ================================================================== *)

Section TrainingMore.

Local Open Scope R_scope.

Variable Model : Type.
Variable fit : tensor2d -> list R -> option Model.
Variable predict : Model -> list R -> option R.

(** X19: a run never changes the events or the four parameters; it ends
    in the idle, the error or the done status; it raises at most one
    alert; and unless it ends in the done status it leaves the predictions
    and the headline prediction as they were. *)
Theorem trainAndPredict_frame (s : appState) :
  let s' := trainAndPredict fit predict s in
  localData s' = localData s
  /\ cellKm s' = cellKm s /\ lookbackDays s' = lookbackDays s
  /\ horizonDays s' = horizonDays s /\ magThreshold s' = magThreshold s
  /\ (trainingStatus s' = StatusIdle \/ trainingStatus s' = StatusError
      \/ trainingStatus s' = StatusDone)
  /\ (alerts s' = alerts s \/ exists msg, alerts s' = alerts s ++ [msg])
  /\ (trainingStatus s' <> StatusDone ->
      predictions s' = predictions s /\ nextPrediction s' = nextPrediction s).
Proof.
  cbv zeta.
  destruct (run_outcome fit predict s) as [msg _ | _ _ _ | m ps _ _ _ _];
    cbn [refuse setStatus publish localData cellKm lookbackDays horizonDays
         magThreshold trainingStatus alerts predictions nextPrediction];
    do 5 (split; [reflexivity |]).
  - split; [left; reflexivity |]. split; [right; exists msg; reflexivity |].
    intros _. split; reflexivity.
  - split; [right; left; reflexivity |]. split; [left; reflexivity |].
    intros _. split; reflexivity.
  - split; [right; right; reflexivity |]. split; [left; reflexivity |].
    intros Hd. contradiction.
Qed.

Lemma probAbove_false (a b : prediction) :
  probAbove a b = false -> probability b <= probability a.
Proof.
  unfold probAbove, Rlt_bool. destruct (Rlt_dec _ _); [discriminate | lra].
Qed.

Lemma probAbove_true (a b : prediction) :
  probAbove a b = true -> probability a < probability b.
Proof.
  unfold probAbove, Rlt_bool. destruct (Rlt_dec _ _); [auto | discriminate].
Qed.

(** The first element of the sorted copy is the first of the greatest
    elements of the list. *)
Lemma sorted_head_first_maximum (l : list prediction) :
  l <> [] ->
  exists before p after,
    l = before ++ p :: after
    /\ hd_error (sortBy probAbove l) = Some p
    /\ (forall q, In q before -> probability q < probability p)
    /\ (forall q, In q after -> probability q <= probability p).
Proof.
  induction l as [| x l IH]; [contradiction |]. intros _.
  destruct l as [| y l].
  - exists [], x, []. cbn. repeat split; auto; intros q [].
  - destruct IH as [before [p [after [El [Hhd [Hb Ha]]]]]]; [discriminate |].
    change (sortBy probAbove (x :: y :: l))
      with (insertSorted probAbove x (sortBy probAbove (y :: l))).
    destruct (sortBy probAbove (y :: l)) as [| h t]; [discriminate Hhd |].
    cbn [hd_error] in Hhd. inversion Hhd; subst h.
    cbn [insertSorted]. destruct (probAbove x p) eqn:E.
    + exists (x :: before), p, after. rewrite El. repeat split; auto.
      intros q [<- | Hq]; [apply probAbove_true; exact E | apply Hb; exact Hq].
    + apply probAbove_false in E.
      exists [], x, (y :: l). repeat split; auto; [intros q [] |].
      intros q Hq. rewrite El in Hq. apply in_app_or in Hq.
      destruct Hq as [Hq | [<- | Hq]].
      * specialize (Hb q Hq). lra.
      * exact E.
      * specialize (Ha q Hq). lra.
Qed.

(** X20: after a run that ends in the done status the headline prediction
    exists and is one of the published predictions; none has a higher
    probability, and of those with its probability it is the first in the
    published list, that is, the one of the latest event. *)
Theorem headline_is_first_maximum (s : appState) :
  trainingStatus (trainAndPredict fit predict s) = StatusDone ->
  exists before p after,
    predictions (trainAndPredict fit predict s) = before ++ p :: after
    /\ nextPrediction (trainAndPredict fit predict s) = Some p
    /\ (forall q, In q before -> probability q < probability p)
    /\ (forall q, In q after -> probability q <= probability p).
Proof.
  intros Hdone.
  destruct (run_outcome fit predict s) as [msg _ | H1 H2 Hf | m ps H1 H2 Hf Hs];
    cbn [trainingStatus refuse setStatus publish predictions nextPrediction] in *;
    try discriminate.
  apply sorted_head_first_maximum.
  intros E. apply (f_equal (@List.length prediction)) in E.
  rewrite length_rev, <- (length_map event), (scored_events _ _ _ Hs) in E.
  cbn in E. lia.
Qed.

Lemma nearPast_earlier (s : appState) (r : row) (e : row) :
  nearPast s r (inject_Z (date r) - msOfDays (lookbackDays s))%Q (date r) e = true ->
  (date e <? date r)%Z = true.
Proof.
  unfold nearPast, inLookback. intros H.
  apply andb_true_iff in H. destruct H as [H _].
  apply andb_true_iff in H. tauto.
Qed.

(** X21: for a given model and normaliser, the score of an event depends
    only on the events that are strictly earlier: events at the same time
    or later can be removed from, or added to, the list without changing
    it. *)
Theorem score_uses_earlier_events_only
        (s : appState) (m : Model) (mean std : list R) (rs : list row) (r : row) :
  score predict s m mean std rs r
  = score predict s m mean std (filter (fun e => (date e <? date r)%Z) rs) r.
Proof.
  assert (Hf : filter (nearPast s r (inject_Z (date r) - msOfDays (lookbackDays s))%Q
                                (date r)) rs
               = filter (nearPast s r (inject_Z (date r) - msOfDays (lookbackDays s))%Q
                                  (date r))
                        (filter (fun e => (date e <? date r)%Z) rs)).
  { induction rs as [| e rs IH]; cbn [filter]; [reflexivity |].
    destruct (date e <? date r)%Z eqn:E; cbn [filter].
    - rewrite IH. reflexivity.
    - destruct (nearPast s r _ (date r) e) eqn:N; [| exact IH].
      apply nearPast_earlier in N. congruence. }
  unfold score; cbv zeta. rewrite <- Hf. reflexivity.
Qed.

End TrainingMore.

Lemma headline_is_first_maximum_witness :
  exists before p after,
    predictions (trainAndPredict fitUnit predictZero (session 31)) = before ++ p :: after
    /\ nextPrediction (trainAndPredict fitUnit predictZero (session 31)) = Some p
    /\ (forall q, In q before -> (probability q < probability p)%R)
    /\ (forall q, In q after -> (probability q <= probability p)%R).
Proof.
  apply headline_is_first_maximum.
  destruct (@session_trained 31) as [ps [_ E]]; [lia |].
  rewrite E. reflexivity.
Defined.

(* ================================================================== *)
(** * More on the normaliser *)
(* ================================================================== *)

Section NormalizerMore.

Local Open Scope R_scope.

Lemma normRow_length (mean std r : list R) :
  List.length (normRow mean std r)
  = Nat.min (List.length r) (Nat.min (List.length mean) (List.length std)).
Proof.
  revert std r. induction mean as [| m mean IH]; intros std r.
  - destruct r; cbn; [reflexivity | reflexivity].
  - destruct r as [| x r]; [reflexivity |].
    destruct std as [| sd std]; [cbn [normRow List.length]; lia |].
    cbn [normRow List.length]. rewrite IH. lia.
Qed.

(** X22: the fitted parameters have one mean and one deviation per
    column; every deviation is at least [epsilon], so that the division
    of the normaliser is never by zero; and normalising a matrix whose
    rows all have the width of the first keeps its numbers of rows and of
    columns. *)
Theorem fitted_normaliser_shape (t : tensor2d) :
  let mean := fst (moments t) in
  let std := stdOf (snd (moments t)) in
  List.length mean = width t
  /\ List.length std = width t
  /\ Forall (fun sd => epsilon <= sd) std
  /\ List.length (normalize mean std t) = List.length t
  /\ (Forall (fun r => List.length r = width t) t ->
      Forall (fun r => List.length r = width t) (normalize mean std t)).
Proof.
  cbv zeta. unfold moments, stdOf, normalize; cbn [fst snd].
  rewrite !length_map, length_seq. repeat split.
  - apply Forall_map, Forall_map, Forall_forall. intros j _.
    pose proof (sqrt_pos (varR (column j t))). lra.
  - intros Hrect. apply Forall_map. eapply Forall_impl; [| exact Hrect].
    cbn beta. intros r Hr.
    rewrite normRow_length, !length_map, length_seq, Hr. lia.
Qed.

End NormalizerMore.

(* ================================================================== *)
(** * The map layers *)
(* ================================================================== *)

Section RenderingFacts.

Local Open Scope R_scope.

Variable Model : Type.
Variable fit : tensor2d -> list R -> option Model.
Variable predict : Model -> list R -> option R.

(** X23: after a run that ends in the done status, rectangles are drawn
    for the 500 latest events (for all events when there are fewer), the
    latest first: their corners lie 0.08 degrees to each side of those
    events; and no rectangle has an opacity above 0.9. *)
Theorem rectangles_of_latest_events (s : appState) :
  trainingStatus (trainAndPredict fit predict s) = StatusDone ->
  let s' := trainAndPredict fit predict s in
  let latest := rev (sliceLast 500 (localData s)) in
  List.length (rectangles s') = Nat.min 500 (List.length (localData s))
  /\ map southWest (rectangles s')
     = map (fun r => ((lat r - (8 # 100))%Q, (lon r - (8 # 100))%Q)) latest
  /\ map northEast (rectangles s')
     = map (fun r => ((lat r + (8 # 100))%Q, (lon r + (8 # 100))%Q)) latest
  /\ Forall (fun rc => opacity rc <= 9 / 10) (rectangles s').
Proof.
  intros Hdone. cbv zeta.
  destruct (run_outcome fit predict s) as [msg _ | H1 H2 Hf | m ps H1 H2 Hf Hs];
    cbn [trainingStatus refuse setStatus publish predictions] in *;
    try discriminate.
  pose proof (scored_events _ _ _ Hs) as Hev.
  assert (Hfirst : map event (firstn 500 (rev ps)) = rev (sliceLast 500 (localData s))).
  { unfold sliceLast. rewrite <- Hev, firstn_rev, map_rev, length_map.
    rewrite <- skipn_map. reflexivity. }
  unfold rectangles; cbn [predictions publish]. rewrite length_map, !map_map.
  repeat split.
  - rewrite length_firstn, length_rev, <- (length_map event ps), Hev. reflexivity.
  - rewrite <- Hfirst, map_map. reflexivity.
  - rewrite <- Hfirst, map_map. reflexivity.
  - apply Forall_map, Forall_forall. intros p _. cbn [rectangleOf opacity].
    apply Rmin_l.
Qed.

End RenderingFacts.

Section MarkerFacts.

Lemma StronglySorted_app_order (A : Type) (R : A -> A -> Prop) (l1 l2 : list A) :
  StronglySorted R (l1 ++ l2) ->
  forall a b, In a l1 -> In b l2 -> R a b.
Proof.
  induction l1 as [| x l1 IH]; cbn [app]; intros Hs a b Ha Hb; [destruct Ha |].
  inversion Hs as [| ? ? Hs' Hx]; subst.
  destruct Ha as [<- | Ha].
  - rewrite Forall_forall in Hx. apply Hx. apply in_or_app. right. exact Hb.
  - apply IH; assumption.
Qed.

(** X24: when the events are in time order, the markers are the 1000
    latest events (all of them when there are fewer): the events split
    into older ones without a marker and the marked ones, none of the
    former being later than any of the latter; and the map is centred on
    an event that no other event is later than, or on the default centre
    when there is no event. *)
Theorem markers_are_latest_events (s : appState) :
  StronglySorted byTime (localData s) ->
  (exists older, localData s = older ++ markers s
                 /\ forall o m, In o older -> In m (markers s) -> (date o <= date m)%Z)
  /\ List.length (markers s) = Nat.min 1000 (List.length (localData s))
  /\ (localData s = [] -> mapCenter s = (1587 # 100, 1009925 # 10000))
  /\ (localData s <> [] ->
      exists r, In r (localData s)
                /\ mapCenter s = (lat r, lon r)
                /\ forall q, In q (localData s) -> (date q <= date r)%Z).
Proof.
  intros Hs. unfold markers, sliceLast, mapCenter. repeat split.
  - exists (firstn (List.length (localData s) - 1000) (localData s)).
    split; [symmetry; apply firstn_skipn |].
    rewrite <- (firstn_skipn (List.length (localData s) - 1000) (localData s)) in Hs.
    intros o m. apply (@StronglySorted_app_order _ _ _ _ Hs).
  - rewrite length_skipn. lia.
  - intros E. rewrite E. reflexivity.
  - intros Hne. destruct (localData s) as [| r rs] eqn:E; [contradiction |].
    exists (last rs r). split; [| split; [reflexivity |]].
    + change (last rs r) with (last rs r).
      destruct rs as [| y rs']; [left; reflexivity |].
      right. apply last_In. discriminate.
    + intros q Hq.
      assert (Hl : last (r :: rs) r = last rs r).
      { destruct rs; [reflexivity |]. reflexivity. }
      rewrite <- Hl.
      apply (@sorted_last_max _ byTime); unfold byTime; auto; intros; lia.
Qed.

End MarkerFacts.

Lemma rectangles_of_latest_events_witness :
  List.length (rectangles (trainAndPredict fitUnit predictZero (session 31)))
  = Nat.min 500 (List.length (localData (session 31))).
Proof.
  apply (@rectangles_of_latest_events unit fitUnit predictZero (session 31)).
  destruct (@session_trained 31) as [ps [_ E]]; [lia |].
  rewrite E. reflexivity.
Defined.

Lemma markers_are_latest_events_witness :
  List.length (markers (session 3)) = Nat.min 1000 (List.length (localData (session 3))).
Proof.
  apply markers_are_latest_events.
  cbn. repeat constructor; unfold byTime; cbn; lia.
Defined.

(* ================================================================== *)
(** * The metadata of the examples, and isolated events *)
(* ================================================================== *)

Section DatasetMeta.

Variable s : appState.

Lemma slot_key (rs : list row) (c : cell) (cur : row) :
  In (c, cur) (slots (groupByGrid rs (cellKm s))) ->
  (gx c, gy c) = gridCoords (Q2R (cellKm s) / 111) cur.
Proof.
  intros H. destruct (slots_In s rs c cur H) as [Hc _].
  unfold slots in H. apply in_flat_map in H.
  destruct H as [e [He H]]. apply in_map_iff in H.
  destruct H as [cur' [Heq _]]. inversion Heq; subst.
  pose proof (grid_cell_rows rs (cellKm s)) as Hcells.
  rewrite Forall_forall in Hcells.
  destruct (Hcells e He) as [Hx [Hy [_ Hrows]]].
  pose proof (eq_ind _ (fun l => In cur l) Hc _ Hrows) as Hin. cbv beta in Hin.
  apply filter_In in Hin. destruct Hin as [_ Hk]. apply key_eqb_eq in Hk.
  rewrite Hk. destruct e as [[kx ky] c']. cbn [fst snd] in *. congruence.
Qed.

Lemma Forall2_maps (A B C : Type) (R : B -> C -> Prop) (f : A -> B) (g : A -> C)
      (l : list A) :
  (forall x, In x l -> R (f x) (g x)) -> Forall2 R (map f l) (map g l).
Proof.
  induction l as [| x l IH]; intros H; cbn [map]; constructor.
  - apply H. left. reflexivity.
  - apply IH. intros z Hz. apply H. right. exact Hz.
Qed.

(** X25: the entries of [X] and of [meta] describe the same input events,
    position by position: the feature vector starts with the latitude and
    longitude of an input event, and the metadata at the same position
    holds that event's grid coordinates, time and place label. *)
Theorem buildDataset_meta (rs : list row) :
  Forall2
    (fun v m =>
       exists cur, In cur rs
                   /\ nth 0 v 0%Q = lat cur /\ nth 1 v 0%Q = lon cur
                   /\ mcell m = gridCoords (Q2R (cellKm s) / 111) cur
                   /\ mtime m = date cur
                   /\ msource m = locate cur)
    (X (buildDataset s rs)) (meta (buildDataset s rs)).
Proof.
  unfold buildDataset; cbn [X meta]. rewrite allExamples_slots, !map_map.
  apply Forall2_maps. intros [c cur] Hslot. cbn [fst snd].
  exists cur. destruct (slots_In s rs c cur Hslot) as [_ Hrs].
  split; [exact Hrs |].
  unfold example; cbv zeta; cbn [fst snd mcell mtime msource featureVector nth].
  repeat split. apply slot_key with (rs := rs). exact Hslot.
Qed.

Lemma groupWith_two_cells (coords : row -> cellKey) (dLat : R) (r1 r2 : row) :
  coords r2 <> coords r1 ->
  groupWith coords dLat [r1; r2]
  = [(coords r1, mkCell (fst (coords r1)) (snd (coords r1)) dLat [r1]);
     (coords r2, mkCell (fst (coords r2)) (snd (coords r2)) dLat [r2])].
Proof.
  intros Hne. unfold groupWith; cbn [fold_left].
  unfold groupStep at 2; cbn [gridHas existsb app gridPush].
  rewrite key_eqb_refl; cbn [gx gy degLat rows app].
  unfold groupStep; cbn [gridHas existsb fst].
  rewrite (key_eqb_neq Hne); cbn [orb app gridPush].
  rewrite (key_eqb_neq Hne), key_eqb_refl; cbn [gx gy degLat rows app].
  reflexivity.
Qed.

(** The two events of [farRows] lie in the rows 10 and 20 of the grid. *)
Lemma farRows_grid :
  Forall (fun e => List.length (rows (snd e)) = 1%nat) (groupByGrid farRows 111)
  /\ List.length (groupByGrid farRows 111) = 2%nat.
Proof.
  unfold groupByGrid, farRows; cbv zeta.
  rewrite groupWith_two_cells.
  - split; [repeat constructor | reflexivity].
  - intros H. apply (f_equal snd) in H. unfold gridCoords in H; cbn [snd lat] in H.
    assert (Hd : (Q2R 111 / 111 = 1)%R) by (unfold Q2R; cbn [Qnum Qden]; field).
    rewrite Hd in H.
    rewrite (@floor_eq (Q2R (41 # 2) / 1)%R 20) in H
      by (unfold Q2R; cbn [Qnum Qden]; simpl; lra).
    rewrite (@floor_eq (Q2R (21 # 2) / 1)%R 10) in H
      by (unfold Q2R; cbn [Qnum Qden]; simpl; lra).
    discriminate H.
Qed.

Lemma singletons_give_no_example (g : grid) :
  Forall (fun e => List.length (rows (snd e)) = 1%nat) g ->
  flat_map (fun e => cellExamples s (snd e)) g = [].
Proof.
  intros Hone. apply length_zero_iff_nil.
  induction Hone as [| e g He Hg IH]; [reflexivity |].
  cbn [flat_map]. rewrite length_app, IH, cellExamples_length.
  rewrite He. reflexivity.
Qed.

(** X26: when every cell of the grid holds a single event, that is, when
    no two events share a grid cell, there is no training example at
    all, however many events there are; a run on such events is
    refused.  The first part holds for the grid of any coordinate
    function, the second is the one of [trainAndPredict]. *)
Theorem isolated_events_give_no_example
        (Model : Type) (fit : tensor2d -> list R -> option Model)
        (predict : Model -> list R -> option R) :
  (forall (coords : row -> cellKey) (dLat : R) (rs : list row),
      Forall (fun e => List.length (rows (snd e)) = 1%nat) (groupWith coords dLat rs) ->
      flat_map (fun e => cellExamples s (snd e)) (groupWith coords dLat rs) = [])
  /\ (Forall (fun e => List.length (rows (snd e)) = 1%nat)
             (groupByGrid (localData s) (cellKm s)) ->
      X (buildDataset s (localData s)) = []
      /\ trainingStatus (trainAndPredict fit predict s) = StatusIdle
      /\ exists msg, alerts (trainAndPredict fit predict s) = alerts s ++ [msg]).
Proof.
  split; [intros coords dLat rs; apply singletons_give_no_example |].
  intros Hone.
  assert (HX : X (buildDataset s (localData s)) = []).
  { unfold buildDataset, allExamples; cbn [X].
    rewrite (singletons_give_no_example Hone). reflexivity. }
  split; [exact HX |].
  destruct (run_outcome fit predict s) as [msg _ | _ H2 _ | m ps _ H2 _ _].
  - split; [reflexivity | exists msg; reflexivity].
  - rewrite HX in H2. cbn in H2. lia.
  - rewrite HX in H2. cbn in H2. lia.
Qed.

End DatasetMeta.

(** Two events in two cells: no example, and the run is refused. *)
Lemma isolated_events_give_no_example_witness :
  List.length (groupByGrid (localData farSession) (cellKm farSession)) = 2%nat
  /\ X (buildDataset farSession (localData farSession)) = []
  /\ trainingStatus (trainAndPredict fitUnit predictZero farSession) = StatusIdle.
Proof.
  split; [exact (proj2 farRows_grid) |].
  destruct (proj2 (@isolated_events_give_no_example farSession unit fitUnit predictZero))
    as [HX [Hst _]].
  - exact (proj1 farRows_grid).
  - split; [exact HX | exact Hst].
Defined.

(* ================================================================== *)
(** * The core is the wide model on rows with valid dates *)
(* ================================================================== *)

Section WideFacts.

Local Open Scope Q_scope.

Lemma existsb_map (A B : Type) (f : A -> B) (p : B -> bool) (l : list A) :
  existsb p (map f l) = existsb (fun x => p (f x)) l.
Proof.
  induction l as [| x l IH]; cbn [map existsb]; [reflexivity |].
  rewrite IH. reflexivity.
Qed.

Lemma filter_map_comm (A B : Type) (f : A -> B) (p : A -> bool) (q : B -> bool)
      (l : list A) :
  (forall x, q (f x) = p x) -> filter q (map f l) = map f (filter p l).
Proof.
  intros H. induction l as [| x l IH]; cbn [map filter]; [reflexivity |].
  rewrite H, IH. destruct (p x); reflexivity.
Qed.

Lemma insertSorted_map (A B : Type) (f : A -> B) (above : A -> A -> bool)
      (above' : B -> B -> bool) (x : A) (l : list A) :
  (forall a b, above' (f a) (f b) = above a b) ->
  insertSorted above' (f x) (map f l) = map f (insertSorted above x l).
Proof.
  intros H. induction l as [| y l IH]; cbn [map insertSorted]; [reflexivity |].
  rewrite H. destruct (above x y); cbn [map]; [rewrite IH |]; reflexivity.
Qed.

Lemma sortBy_map (A B : Type) (f : A -> B) (above : A -> A -> bool)
      (above' : B -> B -> bool) (l : list A) :
  (forall a b, above' (f a) (f b) = above a b) ->
  sortBy above' (map f l) = map f (sortBy above l).
Proof.
  intros H. unfold sortBy.
  induction l as [| x l IH]; cbn [map fold_right]; [reflexivity |].
  rewrite IH. apply insertSorted_map. exact H.
Qed.

Lemma last_map (A B : Type) (f : A -> B) (l : list A) (d : A) :
  last (map f l) (f d) = f (last l d).
Proof.
  induction l as [| x l IH]; [reflexivity |].
  destruct l as [| y l]; [reflexivity |].
  cbn [map last] in *. exact IH.
Qed.

Lemma wide_sumMag (l : list row) : Wide.sumMag (map widen l) = sumMag l.
Proof.
  unfold Wide.sumMag, sumMag. generalize 0.
  induction l as [| x l IH]; intros a; cbn [map fold_left]; [reflexivity |].
  apply IH.
Qed.

Lemma widen_narrow (w : Wide.row) : Wide.date w <> None -> widen (narrow w) = w.
Proof.
  intros H. destruct w as [[tv |] la lo m loc]; [reflexivity |].
  exfalso. apply H. reflexivity.
Qed.

Lemma widen_narrow_all (ws : list Wide.row) :
  Forall (fun w => Wide.date w <> None) ws -> map widen (map narrow ws) = ws.
Proof.
  induction 1 as [| w ws Hw Hws IH]; cbn [map]; [reflexivity |].
  rewrite widen_narrow by exact Hw. rewrite IH. reflexivity.
Qed.

Lemma wide_gridHas (g : grid) (k : cellKey) :
  Wide.gridHas (map widenEntry g) k = gridHas g k.
Proof. unfold Wide.gridHas, gridHas. rewrite existsb_map. reflexivity. Qed.

Lemma wide_gridPush (g : grid) (k : cellKey) (r : row) :
  Wide.gridPush (map widenEntry g) k (widen r) = map widenEntry (gridPush g k r).
Proof.
  induction g as [| [k' c] g IH]; cbn [map gridPush Wide.gridPush]; [reflexivity |].
  unfold widenEntry at 1; cbn [fst snd].
  destruct (key_eqb k k'); cbn [map].
  - unfold widenEntry at 2, widenCell; cbn [fst snd gx gy degLat rows
      Wide.gx Wide.gy Wide.degLat Wide.rows].
    rewrite map_app. reflexivity.
  - rewrite IH. reflexivity.
Qed.

Lemma wide_groupStep (coords : row -> cellKey) (wcoords : Wide.row -> cellKey)
      (dLat : R) (g : grid) (r : row) :
  (forall x, wcoords (widen x) = coords x) ->
  Wide.groupStep wcoords dLat (map widenEntry g) (widen r)
  = map widenEntry (groupStep coords dLat g r).
Proof.
  intros H. unfold Wide.groupStep, groupStep; cbv zeta.
  rewrite H, wide_gridHas.
  destruct (gridHas g (coords r)).
  - apply wide_gridPush.
  - rewrite <- wide_gridPush, map_app. reflexivity.
Qed.

Lemma wide_groupWith (coords : row -> cellKey) (wcoords : Wide.row -> cellKey)
      (dLat : R) (rs : list row) :
  (forall x, wcoords (widen x) = coords x) ->
  Wide.groupWith wcoords dLat (map widen rs) = map widenEntry (groupWith coords dLat rs).
Proof.
  intros H. unfold Wide.groupWith, groupWith.
  change (@nil (cellKey * Wide.cell)) with (map widenEntry []).
  generalize (@nil (cellKey * cell)) as g.
  induction rs as [| r rs IH]; intros g; cbn [map fold_left]; [reflexivity |].
  rewrite (@wide_groupStep coords wcoords dLat g r H). apply IH.
Qed.

Lemma wide_groupByGrid (rs : list row) (cellKm : Q) :
  Wide.groupByGrid (map widen rs) cellKm = map widenEntry (groupByGrid rs cellKm).
Proof.
  unfold Wide.groupByGrid, groupByGrid; cbv zeta.
  apply wide_groupWith. reflexivity.
Qed.

Variable s : appState.

Lemma wide_featureVector (cur : row) (past : list row) :
  Wide.featureVector (widen cur) (Some (date cur)) (map widen past)
  = map Some (featureVector cur (date cur) past).
Proof.
  unfold Wide.featureVector, featureVector; cbv zeta.
  rewrite length_map, wide_sumMag, last_map.
  cbn [map widen Wide.lat Wide.lon Wide.date Wide.hoursBetween].
  destruct (0 <? List.length past)%nat; reflexivity.
Qed.

Lemma wide_example (c : cell) (cellRows : list row) (cur : row) :
  Wide.example s (widenCell c) (map widen cellRows) (widen cur)
  = widenExample (example s c cellRows cur).
Proof.
  unfold Wide.example, example, widenExample; cbv zeta; cbn [fst snd].
  rewrite (filter_map_comm widen
             (inLookback (inject_Z (date cur) - msOfDays (lookbackDays s)) (date cur)))
    by reflexivity.
  rewrite (filter_map_comm widen
             (inHorizon (date cur) (inject_Z (date cur) + msOfDays (horizonDays s))))
    by reflexivity.
  rewrite existsb_map.
  change (Wide.date (widen cur)) with (Some (date cur)).
  rewrite wide_featureVector. reflexivity.
Qed.

Lemma wide_cellExamples (c : cell) :
  Wide.cellExamples s (widenCell c) = map widenExample (cellExamples s c).
Proof.
  unfold Wide.cellExamples, cellExamples; cbv zeta.
  cbn [widenCell Wide.rows].
  rewrite (sortBy_map widen dateAbove) by reflexivity.
  rewrite length_map, firstn_map, !map_map.
  apply map_ext. intros cur. apply wide_example.
Qed.

Lemma wide_allExamples (rs : list row) :
  Wide.allExamples s (map widen rs) = map widenExample (allExamples s rs).
Proof.
  unfold Wide.allExamples, allExamples. rewrite wide_groupByGrid.
  induction (groupByGrid rs (cellKm s)) as [| e g IH]; cbn [map flat_map]; [reflexivity |].
  rewrite IH, map_app. f_equal. apply wide_cellExamples.
Qed.

(** On events whose dates are valid, [buildDataset] of the core is
    [buildDataset] of the wide model. *)
Lemma wide_buildDataset_valid (rs : list row) :
  Wide.buildDataset s (map widen rs) = widenDataset (buildDataset s rs).
Proof.
  unfold Wide.buildDataset, buildDataset, widenDataset; cbv zeta.
  rewrite wide_allExamples; cbn [X y meta]. rewrite !map_map. reflexivity.
Qed.

End WideFacts.

(* ================================================================== *)
(** * The training set of a file with an undated row *)
(* ================================================================== *)

Section UndatedRow.

Lemma wide_fold_one_cell (coords : Wide.row -> cellKey) (dLat : R) (k : cellKey)
      (rs : list Wide.row) (c : Wide.cell) :
  Forall (fun r => coords r = k) rs ->
  fold_left (Wide.groupStep coords dLat) rs [(k, c)]
  = [(k, Wide.mkCell (Wide.gx c) (Wide.gy c) (Wide.degLat c) (Wide.rows c ++ rs))].
Proof.
  revert c. induction rs as [| r rs IH]; intros c H; cbn [fold_left].
  - rewrite app_nil_r. destruct c; reflexivity.
  - inversion H as [| ? ? Hr Hrs]; subst.
    unfold Wide.groupStep at 2; cbv zeta. cbn [Wide.gridHas existsb fst].
    rewrite key_eqb_refl. cbn [orb Wide.gridPush]. rewrite key_eqb_refl.
    rewrite IH by exact Hrs. cbn [Wide.gx Wide.gy Wide.degLat Wide.rows].
    rewrite <- app_assoc. reflexivity.
Qed.

(** Rows that share their coordinates end in one cell, in input order. *)
Lemma wide_groupWith_one_cell (coords : Wide.row -> cellKey) (dLat : R) (k : cellKey)
      (r : Wide.row) (rs : list Wide.row) :
  Forall (fun r' => coords r' = k) (r :: rs) ->
  Wide.groupWith coords dLat (r :: rs)
  = [(k, Wide.mkCell (fst k) (snd k) dLat (r :: rs))].
Proof.
  intros H. inversion H as [| ? ? Hr Hrs]; subst.
  unfold Wide.groupWith. cbn [fold_left].
  unfold Wide.groupStep at 2; cbv zeta. cbn [Wide.gridHas existsb app Wide.gridPush].
  rewrite key_eqb_refl.
  rewrite wide_fold_one_cell by exact Hrs. reflexivity.
Qed.

Lemma wide_fold_second_cell (coords : Wide.row -> cellKey) (dLat : R)
      (k1 k2 : cellKey) (c1 c2 : Wide.cell) (rs : list Wide.row) :
  k2 <> k1 ->
  Forall (fun r => coords r = k2) rs ->
  fold_left (Wide.groupStep coords dLat) rs [(k1, c1); (k2, c2)]
  = [(k1, c1);
     (k2, Wide.mkCell (Wide.gx c2) (Wide.gy c2) (Wide.degLat c2) (Wide.rows c2 ++ rs))].
Proof.
  intros Hne. revert c2. induction rs as [| r rs IH]; intros c2 H; cbn [fold_left].
  - rewrite app_nil_r. destruct c2; reflexivity.
  - inversion H as [| ? ? Hr Hrs]; subst.
    unfold Wide.groupStep at 2; cbv zeta. cbn [Wide.gridHas existsb fst].
    rewrite (key_eqb_neq Hne), key_eqb_refl. cbn [orb Wide.gridPush].
    rewrite (key_eqb_neq Hne), key_eqb_refl.
    rewrite IH by exact Hrs. cbn [Wide.gx Wide.gy Wide.degLat Wide.rows].
    rewrite <- app_assoc. reflexivity.
Qed.

(** Rows with one pair of coordinates followed by rows with another pair
    end in two cells. *)
Lemma wide_groupWith_two_cells (coords : Wide.row -> cellKey) (dLat : R)
      (k1 k2 : cellKey) (r1 : Wide.row) (rs1 : list Wide.row)
      (r2 : Wide.row) (rs2 : list Wide.row) :
  k2 <> k1 ->
  Forall (fun r => coords r = k1) (r1 :: rs1) ->
  Forall (fun r => coords r = k2) (r2 :: rs2) ->
  Wide.groupWith coords dLat ((r1 :: rs1) ++ r2 :: rs2)
  = [(k1, Wide.mkCell (fst k1) (snd k1) dLat (r1 :: rs1));
     (k2, Wide.mkCell (fst k2) (snd k2) dLat (r2 :: rs2))].
Proof.
  intros Hne H1 H2. inversion H2 as [| ? ? Hr2 Hrs2]; subst.
  pose proof (@wide_groupWith_one_cell coords dLat k1 r1 rs1 H1) as E1.
  unfold Wide.groupWith in *. rewrite fold_left_app, E1. cbn [fold_left].
  unfold Wide.groupStep at 2; cbv zeta. cbn [Wide.gridHas existsb fst].
  rewrite (key_eqb_neq Hne). cbn [orb app Wide.gridPush].
  rewrite (key_eqb_neq Hne), key_eqb_refl.
  rewrite wide_fold_second_cell by assumption. reflexivity.
Qed.

(** The times in [meta]: those of the rows of every cell, in the order
    that the sort leaves, but for the last row. *)
Lemma wide_meta_times (s : appState) (rs : list Wide.row) :
  map Wide.mtime (Wide.meta (Wide.buildDataset s rs))
  = flat_map (fun e =>
                map Wide.date
                    (removelast (sortBy Wide.dateAbove (Wide.rows (snd e)))))
             (Wide.groupByGrid rs (cellKm s)).
Proof.
  unfold Wide.buildDataset, Wide.allExamples; cbv zeta; cbn [Wide.meta].
  induction (Wide.groupByGrid rs (cellKm s)) as [| e g IH]; cbn [flat_map map];
    [reflexivity |].
  rewrite !map_app, IH. f_equal.
  unfold Wide.cellExamples; cbv zeta.
  rewrite firstn_removelast, !map_map. reflexivity.
Qed.

(** The comparator is not positive on the undated row, and the sort
    leaves the rows of the two cells as they are. *)
Lemma undated_cell_order :
  sortBy Wide.dateAbove [sixthJanuary; undated; firstJanuary]
  = [sixthJanuary; undated; firstJanuary]
  /\ sortBy Wide.dateAbove marchRows = marchRows.
Proof. split; vm_compute; reflexivity. Qed.

(** The two places of [undatedRows] lie in the rows 33 and 66 of a grid
    of 50 km. *)
Lemma undatedRows_grid :
  exists x1 x2,
    Wide.groupByGrid undatedRows 50
    = [((x1, 33%Z),
        Wide.mkCell x1 33 (Q2R 50 / 111) [sixthJanuary; undated; firstJanuary]);
       ((x2, 66%Z), Wide.mkCell x2 66 (Q2R 50 / 111) marchRows)].
Proof.
  assert (H15 : floor (Q2R 15 / (Q2R 50 / 111))%R = 33%Z).
  { apply floor_eq. unfold Q2R; cbn [Qnum Qden]. simpl. lra. }
  assert (H30 : floor (Q2R 30 / (Q2R 50 / 111))%R = 66%Z).
  { apply floor_eq. unfold Q2R; cbn [Qnum Qden]. simpl. lra. }
  assert (Hk1 : snd (Wide.gridCoords (Q2R 50 / 111) sixthJanuary) = 33%Z) by exact H15.
  assert (Hk2 : snd (Wide.gridCoords (Q2R 50 / 111) (hd undated marchRows)) = 66%Z)
    by exact H30.
  assert (F1 : Forall (fun r => Wide.gridCoords (Q2R 50 / 111) r
                                = Wide.gridCoords (Q2R 50 / 111) sixthJanuary)
                      [sixthJanuary; undated; firstJanuary])
    by (repeat constructor).
  assert (F2 : Forall (fun r => Wide.gridCoords (Q2R 50 / 111) r
                                = Wide.gridCoords (Q2R 50 / 111) (hd undated marchRows))
                      (hd undated marchRows :: tl marchRows))
    by (repeat constructor).
  assert (Hne : Wide.gridCoords (Q2R 50 / 111) (hd undated marchRows)
                <> Wide.gridCoords (Q2R 50 / 111) sixthJanuary).
  { intros H. apply (f_equal snd) in H. rewrite Hk1, Hk2 in H. discriminate H. }
  pose proof (@wide_groupWith_two_cells _ (Q2R 50 / 111)%R _ _ _ _ _ _ Hne F1 F2) as E.
  change (hd undated marchRows :: tl marchRows) with marchRows in E.
  unfold Wide.groupByGrid, undatedRows; cbv zeta. rewrite E.
  rewrite Hk1, Hk2.
  destruct (Wide.gridCoords (Q2R 50 / 111) sixthJanuary) as [a1 b1].
  destruct (Wide.gridCoords (Q2R 50 / 111) (hd undated marchRows)) as [a2 b2].
  cbn [fst snd] in *. subst b1 b2. exists a1, a2. reflexivity.
Qed.

(** C2 fails on the source.  [undatedFile] holds 33 rows, and
    [handleFile] keeps them all, in the order of the file.  The grid of
    50 km has two cells: the first holds the events of 6 January and of
    1 January together with the undated row, the second the thirty
    events of March.  [buildDataset] gives 31 examples.  Those of the
    first cell are one for the event of 6 January, the most recent of
    the cell, and one for the undated row; the event of 1 January, the
    oldest of the cell, gets none. *)
Theorem buildDataset_example_for_latest_event :
  map Wide.ofParsed (handleFile 0 (fun _ => Js.InvalidDate) undatedFile)
  = map Some undatedRows
  /\ map (fun e => Wide.rows (snd e)) (Wide.groupByGrid undatedRows (cellKm (session 0)))
     = [[sixthJanuary; undated; firstJanuary]; marchRows]
  /\ (forall r, In r [sixthJanuary; undated; firstJanuary] ->
        Wide.ltTime (Wide.date sixthJanuary) (Wide.date r) = false)
  /\ map Wide.mtime (Wide.meta (Wide.buildDataset (session 0) undatedRows))
     = [Wide.date sixthJanuary; Wide.date undated]
       ++ map Wide.date (removelast marchRows)
  /\ List.length (Wide.X (Wide.buildDataset (session 0) undatedRows)) = 31%nat.
Proof.
  assert (Hmeta : map Wide.mtime (Wide.meta (Wide.buildDataset (session 0) undatedRows))
                  = [Wide.date sixthJanuary; Wide.date undated]
                    ++ map Wide.date (removelast marchRows)).
  { rewrite wide_meta_times. cbn [session cellKm].
    destruct undatedRows_grid as [x1 [x2 Hg]]. rewrite Hg.
    cbn [flat_map snd Wide.rows].
    rewrite (proj1 undated_cell_order), (proj2 undated_cell_order), app_nil_r.
    reflexivity. }
  split; [vm_compute; reflexivity |].
  split.
  { cbn [session cellKm]. destruct undatedRows_grid as [x1 [x2 Hg]].
    rewrite Hg. reflexivity. }
  split; [intros r [<- | [<- | [<- | []]]]; reflexivity |].
  split; [exact Hmeta |].
  transitivity
    (List.length (map Wide.mtime (Wide.meta (Wide.buildDataset (session 0) undatedRows)))).
  { unfold Wide.buildDataset; cbv zeta; cbn [Wide.X Wide.meta].
    rewrite !length_map. reflexivity. }
  rewrite Hmeta. reflexivity.
Qed.

(** On rows whose dates are all valid [buildDataset] does what the
    specification says: the training set is the one of the core, the
    cells hold the input events, each once and each in the cell of its
    coordinates, and every cell gives one example per event but its most
    recent one, labelled by the events of its horizon window. *)
Lemma buildDataset_labels_valid_dates (s : appState) (ws : list Wide.row) :
  Forall (fun w => Wide.date w <> None) ws ->
  let rs := map narrow ws in
  let g := groupByGrid rs (cellKm s) in
  Wide.buildDataset s ws = widenDataset (buildDataset s rs)
  /\ Permutation (flat_map (fun e => rows (snd e)) g) rs
  /\ NoDup (map fst g)
  /\ Forall (cellOf (gridCoords (Q2R (cellKm s) / 111)) (Q2R (cellKm s) / 111) rs) g
  /\ combine (combine (X (buildDataset s rs)) (y (buildDataset s rs)))
             (meta (buildDataset s rs))
     = flat_map (fun e => cellExamples s (snd e)) g
  /\ Forall
       (fun e =>
          exists older newest,
            Permutation (older ++ [newest]) (rows (snd e))
            /\ StronglySorted byTime (older ++ [newest])
            /\ (forall r, In r (rows (snd e)) -> (date r <= date newest)%Z)
            /\ Forall2 (labelledBy s (snd e)) older (cellExamples s (snd e)))
       g.
Proof.
  intros Hvalid rs g.
  destruct (groupByGrid_invariant rs (cellKm s)) as [Hnd [Hcells _]].
  destruct (buildDataset_labels s rs) as [Hcomb Hlab].
  split; [| split; [| split; [exact Hnd | split; [exact Hcells | split]]]].
  - rewrite <- (widen_narrow_all Hvalid) at 1. apply wide_buildDataset_valid.
  - unfold g, groupByGrid, groupWith; cbv zeta.
    rewrite fold_groupStep_rows. reflexivity.
  - exact Hcomb.
  - exact Hlab.
Qed.

End UndatedRow.

(* ================================================================== *)
(** * The feature vectors of the training set *)
(* ================================================================== *)

Section FeatureVectors.

Local Open Scope Q_scope.

Variable s : appState.

Lemma Qle_bool_eq_l (a a' b : Q) : a == a' -> Qle_bool a b = Qle_bool a' b.
Proof.
  intros E.
  destruct (Qle_bool a b) eqn:H1, (Qle_bool a' b) eqn:H2; try reflexivity.
  - apply Qle_bool_iff in H1. rewrite E in H1. apply Qle_bool_iff in H1. congruence.
  - apply Qle_bool_iff in H2. rewrite <- E in H2. apply Qle_bool_iff in H2. congruence.
Qed.

Lemma priorEvents_widen (rs : list row) (cur : row) :
  priorEvents s (map widen rs) (widen cur) = map widen (priorOf s rs cur).
Proof.
  unfold priorEvents, priorOf. apply filter_map_comm. intros p.
  cbn [widen Wide.date].
  change (Wide.gridCoords (Q2R (cellKm s) / 111)
            (Wide.mkRow (Some (date p)) (lat p) (lon p) (mag p) (locate p)))
    with (gridCoords (Q2R (cellKm s) / 111) p).
  change (Wide.gridCoords (Q2R (cellKm s) / 111)
            (Wide.mkRow (Some (date cur)) (lat cur) (lon cur) (mag cur) (locate cur)))
    with (gridCoords (Q2R (cellKm s) / 111) cur).
  unfold inLookback. f_equal. f_equal.
  apply Qle_bool_eq_l. unfold msOfDays. ring.
Qed.

Lemma fold_sumMag (l : list row) (a : Q) :
  fold_left (fun acc e => acc + mag e) l a == a + sumQ (map mag l).
Proof.
  revert a. induction l as [| x l IH]; intros a; cbn [fold_left map sumQ fold_right].
  - ring.
  - rewrite IH. fold (sumQ (map mag l)). ring.
Qed.

Lemma sumMag_sumQ (l : list row) : sumMag l == sumQ (map mag l).
Proof. unfold sumMag. rewrite fold_sumMag. ring. Qed.

Lemma sumQ_perm (l l' : list Q) : Permutation l l' -> sumQ l == sumQ l'.
Proof.
  induction 1 as [| x l l' H IH | x y l | l l' l'' H1 IH1 H2 IH2];
    cbn [sumQ fold_right].
  - reflexivity.
  - fold (sumQ l) (sumQ l'). rewrite IH. reflexivity.
  - fold (sumQ l). ring.
  - rewrite IH1. exact IH2.
Qed.

Lemma map_mag_widen (l : list row) : map Wide.mag (map widen l) = map mag l.
Proof. rewrite map_map. reflexivity. Qed.

(** X15: on input events whose dates are all valid, every feature vector
    of the training set is the one of an input event [cur] at a time
    [t]: its latitude and longitude, then the number of input events
    that share its cell and have their time in [[t - lookbackDays, t)],
    then the mean magnitude of these events and the hours since the
    most recent of them.  With no such event the last two are 0 and
    999999; otherwise the hours are positive and at most
    [24 * lookbackDays]. *)
Theorem buildDataset_features (ws : list Wide.row) :
  Forall (fun w => Wide.date w <> None) ws ->
  Forall
    (fun v =>
       exists cur t avgMag lastTime,
         In cur ws
         /\ Wide.date cur = Some t
         /\ v = [Some (Wide.lat cur); Some (Wide.lon cur);
                 Some (inject_Z (Z.of_nat (List.length (priorEvents s ws cur))));
                 Some avgMag; Some lastTime]
         /\ (priorEvents s ws cur = [] -> avgMag = 0 /\ lastTime = 999999)
         /\ (priorEvents s ws cur <> [] ->
             avgMag == sumQ (map Wide.mag (priorEvents s ws cur))
                       / inject_Z (Z.of_nat (List.length (priorEvents s ws cur)))
             /\ exists p tp,
                 In p (priorEvents s ws cur)
                 /\ Wide.date p = Some tp
                 /\ (forall q tq, In q (priorEvents s ws cur) ->
                                  Wide.date q = Some tq -> (tq <= tp)%Z)
                 /\ lastTime = inject_Z (t - tp) / 3600000
                 /\ 0 < lastTime /\ lastTime <= 24 * lookbackDays s))
    (Wide.X (Wide.buildDataset s ws)).
Proof.
  intros Hvalid.
  pose proof (widen_narrow_all Hvalid) as E.
  remember (map narrow ws) as rs eqn:Hrs. clear Hrs Hvalid. subst ws.
  rewrite wide_buildDataset_valid; cbn [widenDataset Wide.X].
  apply Forall_map. unfold buildDataset; cbn [X].
  rewrite allExamples_slots, map_map.
  apply Forall_map, Forall_forall. intros [c cur] Hslot. cbn [fst snd].
  destruct (slot_cell s rs c cur Hslot) as [Hcur _].
  pose proof (past_is_priorOf s rs c cur Hslot) as Hperm.
  unfold example; cbv zeta; cbn [fst].
  set (past := filter (inLookback (inject_Z (date cur) - msOfDays (lookbackDays s))
                                  (date cur)) (sortBy dateAbove (rows c))) in *.
  unfold featureVector; cbv zeta. cbn [map].
  exists (widen cur), (date cur). eexists. eexists.
  rewrite priorEvents_widen, length_map, map_mag_widen.
  rewrite <- (Permutation_length Hperm).
  split; [apply in_map; exact Hcur |].
  split; [reflexivity |].
  split; [reflexivity |].
  split.
  - intros Hnil. apply map_eq_nil in Hnil.
    rewrite Hnil in Hperm. apply Permutation_sym, Permutation_nil in Hperm.
    rewrite Hperm. cbn. split; reflexivity.
  - intros Hne.
    assert (Hpast : past <> []).
    { intros E. rewrite E in Hperm. apply Permutation_nil in Hperm.
      apply Hne. rewrite Hperm. reflexivity. }
    assert (Hlen : (0 <? List.length past)%nat = true).
    { apply Nat.ltb_lt. destruct past; [contradiction | cbn; lia]. }
    rewrite Hlen.
    pose proof (last_In cur Hpast) as Hlast.
    assert (Hsorted : StronglySorted byTime past).
    { unfold past. apply StronglySorted_filter, sortByDate_sorted. }
    split.
    + rewrite sumMag_sumQ.
      rewrite (sumQ_perm (Permutation_map mag Hperm)). reflexivity.
    + exists (widen (last past cur)), (date (last past cur)).
      split; [apply in_map, (Permutation_in _ Hperm); exact Hlast |].
      split; [reflexivity |].
      split.
      * intros q tq Hq Hdate. apply in_map_iff in Hq.
        destruct Hq as [q' [<- Hq']]. cbn [widen Wide.date] in Hdate.
        inversion Hdate; subst tq.
        apply (Permutation_in _ (Permutation_sym Hperm)) in Hq'.
        apply (@sorted_last_max _ byTime); unfold byTime; auto; intros; lia.
      * split; [reflexivity |].
        unfold past in Hlast. apply filter_In in Hlast. destruct Hlast as [_ Hw].
        apply inLookback_spec in Hw. destruct Hw as [Hw1 Hw2].
        apply hours_range; assumption.
Qed.

End FeatureVectors.

(** Two valid events in one cell: the one feature vector is that of the
    earlier event, which has no prior event. *)
Lemma buildDataset_features_witness :
  Forall (fun v => exists cur, In cur [firstJanuary; sixthJanuary]
                               /\ nth 0 v None = Some (Wide.lat cur))
         (Wide.X (Wide.buildDataset (session 0) [firstJanuary; sixthJanuary])).
Proof.
  eapply Forall_impl;
    [| apply (@buildDataset_features (session 0) [firstJanuary; sixthJanuary]);
       repeat constructor; discriminate].
  cbv beta. intros v [cur [t [avgMag [lastTime [Hin [_ [Hv _]]]]]]].
  exists cur. split; [exact Hin |]. rewrite Hv. reflexivity.
Defined.
